(** * Block-proposal construction and validation (baseapp/abci_utils.go)

    A shallow embedding of the default proposal handlers of the Cosmos SDK
    [baseapp] package: the budgeted transaction selector
    ([defaultTxSelector]), the proposal builder ([PrepareProposalHandler])
    with its per-signer sequence tracking, and the proposal validator
    ([ProcessProposalHandler]).

    Conventions.
    - A Go [uint64] is an [N] on which every addition and subtraction is
      reduced modulo 2^64 ([add64], [sub64]); a Go [int64] is a [Z], and
      the conversion [uint64(x)] is [uint64_of_int64].
    - A byte string ([[]byte]) is a [list Byte.byte].
    - The Go map [map[string]uint64] is a [gmap string N].
    - A panic of the Go code is a result of its own ([StepPanic],
      [PreparePanic]). *)

From Stdlib Require Import ZArith NArith Lia.
From stdpp Require Import gmap strings list fin_maps.

Local Open Scope N_scope.

(** ** Machine integers *)

Definition two64 : N := 18446744073709551616.

Definition wrap64 (a : N) : N := a mod two64.
Definition add64 (a b : N) : N := (a + b) mod two64.
Definition sub64 (a b : N) : N := (a mod two64 + (two64 - b mod two64)) mod two64.

(** [uint64(x)] for [x : int64]. *)
Definition uint64_of_int64 (x : Z) : N := Z.to_N (x mod 18446744073709551616)%Z.

Definition int64_range (x : Z) : Prop :=
  (-9223372036854775808 <= x < 9223372036854775808)%Z.

(** ** Transactions *)

Abbreviation bytes := (list Byte.byte).

(** One entry of [GetSignaturesV2]: the signer is the string
    [sdk.AccAddress(sig.PubKey.Address()).String()]. *)
Record SignatureV2 := {
  Signer : string;
  Sequence : N;
}.

(** An [sdk.Tx] seen through the capabilities the handlers use.
    [GetGas] is [None] when the transaction does not implement [GasTx];
    [GetSignaturesV2] is [None] when the call (or the type assertion to
    [SigVerifiableTx]) fails. *)
Record Tx := {
  Payload : bytes;
  GetGas : option N;
  GetSignaturesV2 : option (list SignatureV2);
}.

(** ** The budgeted selector *)

Record defaultTxSelector := {
  totalTxBytes : N;
  totalTxGas : N;
  selectedTxs : list bytes;
}.

Definition NewDefaultTxSelector : defaultTxSelector :=
  {| totalTxBytes := 0; totalTxGas := 0; selectedTxs := [] |}.

Definition SelectedTxs (ts : defaultTxSelector) : list bytes := selectedTxs ts.

Definition Clear (ts : defaultTxSelector) : defaultTxSelector :=
  {| totalTxBytes := 0; totalTxGas := 0; selectedTxs := [] |}.

Definition txSizeOf (txBz : bytes) : N := wrap64 (N.of_nat (length txBz)).

(** [txGasLimit]: zero unless [memTx] is non-nil and implements [GasTx]. *)
Definition txGasLimitOf (memTx : option Tx) : N :=
  match memTx with
  | Some tx => match GetGas tx with Some g => g | None => 0 end
  | None => 0
  end.

(** The state after the admission decision of [SelectTxForProposal]. *)
Definition selectUpdate (maxTxBytes maxBlockGas : N) (memTx : option Tx)
    (txBz : bytes) (ts : defaultTxSelector) : defaultTxSelector :=
  let txSize := txSizeOf txBz in
  let txGasLimit := txGasLimitOf memTx in
  if add64 txSize (totalTxBytes ts) <=? maxTxBytes then
    if 0 <? maxBlockGas then
      if add64 txGasLimit (totalTxGas ts) <=? maxBlockGas then
        {| totalTxBytes := add64 (totalTxBytes ts) txSize;
           totalTxGas := add64 (totalTxGas ts) txGasLimit;
           selectedTxs := selectedTxs ts ++ [txBz] |}
      else ts
    else
      {| totalTxBytes := add64 (totalTxBytes ts) txSize;
         totalTxGas := totalTxGas ts;
         selectedTxs := selectedTxs ts ++ [txBz] |}
  else ts.

(** The capacity test that ends [SelectTxForProposal]. *)
Definition reachedCapacity (maxTxBytes maxBlockGas : N)
    (ts : defaultTxSelector) : bool :=
  (maxTxBytes <=? totalTxBytes ts)
  || ((0 <? maxBlockGas) && (maxBlockGas <=? totalTxGas ts)).

(** [SelectTxForProposal] returns the updated selector and the halt flag. *)
Definition SelectTxForProposal (maxTxBytes maxBlockGas : N)
    (memTx : option Tx) (txBz : bytes) (ts : defaultTxSelector)
    : defaultTxSelector * bool :=
  let ts' := selectUpdate maxTxBytes maxBlockGas memTx txBz ts in
  (ts', reachedCapacity maxTxBytes maxBlockGas ts').

(** ** Collaborators of the handlers *)

(** [ctx.ConsensusParams().Block]; [MaxGas] is an [int64]. *)
Record BlockParams := {
  MaxBytes : Z;
  MaxGas : Z;
}.

(** The part of [sdk.Context] the handlers read: the [Block] pointer of the
    consensus parameters, [None] when it is nil. *)
Record Context := {
  ConsensusParamsBlock : option BlockParams;
}.

(** [abci.RequestPrepareProposal]; [MaxTxBytes] is an [int64]. *)
Record RequestPrepareProposal := {
  MaxTxBytes : Z;
  Txs : list bytes;
}.

(** [abci.RequestProcessProposal]; [ProposalTxs] is its field [Txs]. *)
Record RequestProcessProposal := {
  ProposalTxs : list bytes;
}.

Inductive ProposalStatus := ACCEPT | REJECT.

(** What [mempool.Remove] can return: nil, [mempool.ErrTxNotFound], or any
    other error. *)
Inductive RemoveResult := RemoveOk | RemoveErrTxNotFound | RemoveErrOther.

(** The mempool of a handler: nil, the no-op mempool, or a real one.  A real
    mempool is seen through [Select], given as the finite sequence of
    transactions its iterator yields, and through the result of [Remove]. *)
Inductive Mempool :=
| NilMempool
| NoOpMempool
| RealMempool (Select : Context -> list bytes -> list Tx)
              (Remove : Tx -> RemoveResult).

Definition isNilOrNoOp (mp : Mempool) : bool :=
  match mp with
  | NilMempool | NoOpMempool => true
  | RealMempool _ _ => false
  end.

(** [ProposalTxVerifier]; an error is [None]. *)
Record ProposalTxVerifier := {
  PrepareProposalVerifyTx : Tx -> option bytes;
  ProcessProposalVerifyTx : bytes -> option Tx;
}.

Record DefaultProposalHandler := {
  mempool : Mempool;
  txVerifier : ProposalTxVerifier;
  txSelector : defaultTxSelector;
}.

Definition NewDefaultProposalHandler (mp : Mempool)
    (v : ProposalTxVerifier) : DefaultProposalHandler :=
  {| mempool := mp; txVerifier := v; txSelector := NewDefaultTxSelector |}.

(** ** The proposal builder *)

(** [maxBlockGas] of [PrepareProposalHandler]: [uint64(b.MaxGas)], zero
    when the block parameters are nil. *)
Definition prepareMaxBlockGas (ctx : Context) : N :=
  match ConsensusParamsBlock ctx with
  | Some b => uint64_of_int64 (MaxGas b)
  | None => 0
  end.

(** The fallback loop over [req.Txs] for a nil or no-op mempool. *)
Fixpoint noOpLoop (maxTxBytes maxBlockGas : N) (txs : list bytes)
    (ts : defaultTxSelector) : defaultTxSelector :=
  match txs with
  | [] => ts
  | txBz :: rest =>
      let '(ts', stop) := SelectTxForProposal maxTxBytes maxBlockGas None txBz ts in
      if stop then ts' else noOpLoop maxTxBytes maxBlockGas rest ts'
  end.

(** The loop over the signatures of one transaction: the result is
    [shouldAdd] and the map [txSignersSeqs]. *)
Fixpoint checkSigners (selectedTxsSignersSeqs : gmap string N)
    (sigs : list SignatureV2) (txSignersSeqs : gmap string N)
    : bool * gmap string N :=
  match sigs with
  | [] => (true, txSignersSeqs)
  | sig :: rest =>
      match selectedTxsSignersSeqs !! Signer sig with
      | None =>
          checkSigners selectedTxsSignersSeqs rest
            (<[Signer sig := Sequence sig]> txSignersSeqs)
      | Some seq =>
          if negb (add64 seq 1 =? Sequence sig) then (false, txSignersSeqs)
          else checkSigners selectedTxsSignersSeqs rest
                 (<[Signer sig := Sequence sig]> txSignersSeqs)
      end
  end.

(** The loop over [txSignersSeqs] after a call of the selector that did not
    halt; [added] is [txsLen != selectedTxsNums]. *)
Definition updateSeqs (added : bool) (txSignersSeqs : gmap string N)
    (selectedTxsSignersSeqs : gmap string N) : gmap string N :=
  map_fold
    (fun sender seq acc =>
       if added then <[sender := seq]> acc
       else match acc !! sender with
            | None => <[sender := sub64 seq 1]> acc
            | Some _ => acc
            end)
    selectedTxsSignersSeqs txSignersSeqs.

(** The variables of the main loop. *)
Record LoopState := {
  selector : defaultTxSelector;
  selectedTxsSignersSeqs : gmap string N;
  selectedTxsNums : nat;
}.

Inductive StepResult :=
| StepPanic
| StepNext (st : LoopState)
| StepBreak (st : LoopState).

(** One iteration of the main loop, on the transaction [memTx] of the
    iterator. *)
Definition iterStep (v : ProposalTxVerifier) (Remove : Tx -> RemoveResult)
    (maxTxBytes maxBlockGas : N) (st : LoopState) (memTx : Tx) : StepResult :=
  match GetSignaturesV2 memTx with
  | None => StepPanic
  | Some sigs =>
      let '(shouldAdd, txSignersSeqs) :=
        checkSigners (selectedTxsSignersSeqs st) sigs ∅ in
      if negb shouldAdd then StepNext st
      else
        match PrepareProposalVerifyTx v memTx with
        | None =>
            match Remove memTx with
            | RemoveOk | RemoveErrTxNotFound => StepNext st
            | RemoveErrOther => StepPanic
            end
        | Some txBz =>
            let '(ts', stop) :=
              SelectTxForProposal maxTxBytes maxBlockGas (Some memTx) txBz
                (selector st) in
            if stop then
              StepBreak {| selector := ts';
                           selectedTxsSignersSeqs := selectedTxsSignersSeqs st;
                           selectedTxsNums := selectedTxsNums st |}
            else
              let txsLen := length (SelectedTxs ts') in
              let added := negb (Nat.eqb txsLen (selectedTxsNums st)) in
              StepNext {| selector := ts';
                          selectedTxsSignersSeqs :=
                            updateSeqs added txSignersSeqs
                              (selectedTxsSignersSeqs st);
                          selectedTxsNums := txsLen |}
        end
  end.

(** The main loop over the iterator; [None] is a panic. *)
Fixpoint prepareLoop (v : ProposalTxVerifier) (Remove : Tx -> RemoveResult)
    (maxTxBytes maxBlockGas : N) (st : LoopState) (iterator : list Tx)
    : option LoopState :=
  match iterator with
  | [] => Some st
  | memTx :: rest =>
      match iterStep v Remove maxTxBytes maxBlockGas st memTx with
      | StepPanic => None
      | StepBreak st' => Some st'
      | StepNext st' => prepareLoop v Remove maxTxBytes maxBlockGas st' rest
      end
  end.

Inductive PrepareResult :=
| PreparePanic
| PrepareOk (txs : list bytes).

(** [PrepareProposalHandler]: the response (or a panic) and the handler
    after the call, whose selector the deferred [Clear] has reset. *)
Definition PrepareProposalHandler (h : DefaultProposalHandler)
    (ctx : Context) (req : RequestPrepareProposal)
    : PrepareResult * DefaultProposalHandler :=
  let maxBlockGas := prepareMaxBlockGas ctx in
  let maxTxBytes := uint64_of_int64 (MaxTxBytes req) in
  let cleared :=
    {| mempool := mempool h; txVerifier := txVerifier h;
       txSelector := Clear (txSelector h) |} in
  match mempool h with
  | NilMempool | NoOpMempool =>
      let ts := noOpLoop maxTxBytes maxBlockGas (Txs req) (txSelector h) in
      (PrepareOk (SelectedTxs ts), cleared)
  | RealMempool Select Remove =>
      let st0 := {| selector := txSelector h;
                    selectedTxsSignersSeqs := ∅;
                    selectedTxsNums := 0 |} in
      match prepareLoop (txVerifier h) Remove maxTxBytes maxBlockGas st0
              (Select ctx (Txs req)) with
      | None => (PreparePanic, cleared)
      | Some st => (PrepareOk (SelectedTxs (selector st)), cleared)
      end
  end.

(** ** The proposal validator *)

(** The loop of [ProcessProposalHandler] over [req.Txs], from the running
    [totalTxGas]; [maxBlockGas] is the [int64] of the consensus
    parameters. *)
Fixpoint processLoop (v : ProposalTxVerifier) (maxBlockGas : Z)
    (totalTxGas : N) (txs : list bytes) : ProposalStatus :=
  match txs with
  | [] => ACCEPT
  | txBytes :: rest =>
      match ProcessProposalVerifyTx v txBytes with
      | None => REJECT
      | Some tx =>
          if (0 <? maxBlockGas)%Z then
            let totalTxGas' :=
              match GetGas tx with
              | Some g => add64 totalTxGas g
              | None => totalTxGas
              end in
            if uint64_of_int64 maxBlockGas <? totalTxGas' then REJECT
            else processLoop v maxBlockGas totalTxGas' rest
          else processLoop v maxBlockGas totalTxGas rest
      end
  end.

Definition processMaxBlockGas (ctx : Context) : Z :=
  match ConsensusParamsBlock ctx with
  | Some b => MaxGas b
  | None => 0%Z
  end.

Definition NoOpProcessProposal (req : RequestProcessProposal)
    : ProposalStatus := ACCEPT.

Definition ProcessProposalHandler (h : DefaultProposalHandler)
    (ctx : Context) (req : RequestProcessProposal) : ProposalStatus :=
  match mempool h with
  | NilMempool | NoOpMempool => NoOpProcessProposal req
  | RealMempool _ _ =>
      processLoop (txVerifier h) (processMaxBlockGas ctx) 0 (ProposalTxs req)
  end.

(** ** Notions used to state the properties *)

(** The admission condition of one selector call, in the arithmetic of the
    code (sums of [uint64] values wrap around). *)
Definition fitsBytes (maxTxBytes : N) (txBz : bytes)
    (ts : defaultTxSelector) : Prop :=
  add64 (totalTxBytes ts) (txSizeOf txBz) <= maxTxBytes.

Definition fitsGas (maxBlockGas : N) (memTx : option Tx)
    (ts : defaultTxSelector) : Prop :=
  maxBlockGas = 0 \/ add64 (totalTxGas ts) (txGasLimitOf memTx) <= maxBlockGas.

(** Admission as the specification words it: the candidate is appended and
    both its size and its gas are added to the running totals. *)
Definition admittedWithGas (memTx : option Tx) (txBz : bytes)
    (ts : defaultTxSelector) : defaultTxSelector :=
  {| totalTxBytes := add64 (totalTxBytes ts) (txSizeOf txBz);
     totalTxGas := add64 (totalTxGas ts) (txGasLimitOf memTx);
     selectedTxs := selectedTxs ts ++ [txBz] |}.

(** Admission as the code performs it: the gas total moves only under a
    positive gas budget. *)
Definition admittedState (maxBlockGas : N) (memTx : option Tx) (txBz : bytes)
    (ts : defaultTxSelector) : defaultTxSelector :=
  {| totalTxBytes := add64 (totalTxBytes ts) (txSizeOf txBz);
     totalTxGas := if 0 <? maxBlockGas
                   then add64 (totalTxGas ts) (txGasLimitOf memTx)
                   else totalTxGas ts;
     selectedTxs := selectedTxs ts ++ [txBz] |}.

(** A sequence of selector calls under fixed budgets. *)
Definition selectCalls (maxTxBytes maxBlockGas : N)
    (calls : list (option Tx * bytes)) (ts : defaultTxSelector)
    : defaultTxSelector :=
  foldl (fun ts c => (SelectTxForProposal maxTxBytes maxBlockGas c.1 c.2 ts).1)
        ts calls.

(** The calls of a sequence that admit their candidate, in order. *)
Fixpoint admittedCalls (maxTxBytes maxBlockGas : N)
    (calls : list (option Tx * bytes)) (ts : defaultTxSelector)
    : list (option Tx * bytes) :=
  match calls with
  | [] => []
  | c :: rest =>
      let ts' := (SelectTxForProposal maxTxBytes maxBlockGas c.1 c.2 ts).1 in
      (if Nat.eqb (length (selectedTxs ts')) (length (selectedTxs ts))
       then [] else [c])
      ++ admittedCalls maxTxBytes maxBlockGas rest ts'
  end.

(** Total declared gas of a list of candidates, as a natural number (no
    wrap-around). *)
Definition totalGas (memTxs : list (option Tx)) : N :=
  foldr (fun memTx acc => txGasLimitOf memTx + acc) 0 memTxs.

(** Total length of a list of byte strings, as a natural number (no
    wrap-around). *)
Definition totalLen (txs : list bytes) : N :=
  foldr (fun tx acc => N.of_nat (length tx) + acc) 0 txs.

(** The longest prefix of [txs] whose total length is at most [budget]. *)
Fixpoint longestFittingPrefix (budget : N) (txs : list bytes) : list bytes :=
  match txs with
  | [] => []
  | tx :: rest =>
      let n := N.of_nat (length tx) in
      if n <=? budget then tx :: longestFittingPrefix (budget - n) rest
      else []
  end.

(** The greedy fill of a byte budget: scanning in order, a candidate is
    taken exactly when it fits into what is left of the budget, and the
    scan ends once nothing is left. *)
Fixpoint greedyFill (budget : N) (txs : list bytes) : list bytes :=
  match txs with
  | [] => []
  | tx :: rest =>
      let n := N.of_nat (length tx) in
      if n <=? budget then
        tx :: (if budget - n =? 0 then [] else greedyFill (budget - n) rest)
      else if budget =? 0 then [] else greedyFill budget rest
  end.

(** The last sequence number a signature list gives for [signer]. *)
Definition lastSeq (signer : string) (sigs : list SignatureV2) : option N :=
  foldl (fun acc sig =>
           if decide (Signer sig = signer) then Some (Sequence sig) else acc)
        None sigs.




(** Whether the iteration on [memTx] from [st] admits it: the selector's
    list has grown. *)
Definition admittedBy (v : ProposalTxVerifier) (Remove : Tx -> RemoveResult)
    (maxTxBytes maxBlockGas : N) (st : LoopState) (memTx : Tx) : bool :=
  match iterStep v Remove maxTxBytes maxBlockGas st memTx with
  | StepPanic => false
  | StepNext st' | StepBreak st' =>
      negb (Nat.eqb (length (selectedTxs (selector st')))
                    (length (selectedTxs (selector st))))
  end.

(** The transactions of the iterator that a run of the main loop admits,
    in admission order. *)
Fixpoint admittedTxs (v : ProposalTxVerifier) (Remove : Tx -> RemoveResult)
    (maxTxBytes maxBlockGas : N) (st : LoopState) (iterator : list Tx)
    : list Tx :=
  match iterator with
  | [] => []
  | memTx :: rest =>
      let here :=
        if admittedBy v Remove maxTxBytes maxBlockGas st memTx
        then [memTx] else [] in
      match iterStep v Remove maxTxBytes maxBlockGas st memTx with
      | StepPanic => []
      | StepBreak _ => here
      | StepNext st' =>
          here ++ admittedTxs v Remove maxTxBytes maxBlockGas st' rest
      end
  end.

(** The loop state at the start of a build with a cleared selector. *)
Definition initialLoopState : LoopState :=
  {| selector := NewDefaultTxSelector;
     selectedTxsSignersSeqs := ∅;
     selectedTxsNums := 0 |}.

(** A loop state as the Go types allow it: recorded sequences are [uint64]
    values and [selectedTxsNums] is the length of the selected list. *)
Definition wellFormedLoopState (st : LoopState) : Prop :=
  map_Forall (fun _ s => s < two64) (selectedTxsSignersSeqs st)
  /\ selectedTxsNums st = length (selectedTxs (selector st)).

(** The condition the signer-sequence filter tests on one signature: when
    the signer has a recorded sequence, the signature carries the next
    one. *)
Definition sigAcceptable (recorded : gmap string N) (sig : SignatureV2)
    : Prop :=
  forall s, recorded !! Signer sig = Some s -> Sequence sig = add64 s 1.

(** The signer-sequence filter lets the signature list through. *)
Definition passesSequenceCheck (recorded : gmap string N)
    (sigs : list SignatureV2) : bool :=
  (checkSigners recorded sigs ∅).1.



(** The gas a received transaction declares on the validator side: zero
    when it does not decode or does not expose gas. *)
Definition declaredGas (v : ProposalTxVerifier) (txBytes : bytes) : N :=
  txGasLimitOf (ProcessProposalVerifyTx v txBytes).

(** The validator's running gas after a list of transactions ([uint64]
    additions). *)
Definition runningGasFrom (v : ProposalTxVerifier) (total : N)
    (txs : list bytes) : N :=
  foldl (fun acc txBytes => add64 acc (declaredGas v txBytes)) total txs.

Definition runningGas (v : ProposalTxVerifier) (txs : list bytes) : N :=
  runningGasFrom v 0 txs.

Definition verifies (v : ProposalTxVerifier) (txBytes : bytes) : Prop :=
  is_Some (ProcessProposalVerifyTx v txBytes).

(** The two sides of the verifier agree: bytes the build side produced for
    a transaction are accepted by the validate side, with the same gas. *)
Definition verifiersAgree (v : ProposalTxVerifier) : Prop :=
  forall memTx txBz,
    PrepareProposalVerifyTx v memTx = Some txBz ->
    exists tx, ProcessProposalVerifyTx v txBz = Some tx
               /\ txGasLimitOf (Some tx) = txGasLimitOf (Some memTx).

(** The validator, run over what the selector holds, is where the selector
    is: it has rejected nothing and its gas counter equals the selector's
    (under a positive budget; otherwise the counter never moves). *)
Definition validatorFollows (v : ProposalTxVerifier) (maxBlockGas : Z)
    (ts : defaultTxSelector) : Prop :=
  totalTxGas ts < two64
  /\ forall rest,
       processLoop v maxBlockGas 0 (selectedTxs ts ++ rest)
       = processLoop v maxBlockGas
           (if (0 <? maxBlockGas)%Z then totalTxGas ts else 0) rest.

Definition contextWithMaxGas (g : Z) : Context :=
  {| ConsensusParamsBlock := Some {| MaxBytes := 0; MaxGas := g |} |}.

Definition wellTypedContext (ctx : Context) : Prop :=
  forall b, ConsensusParamsBlock ctx = Some b -> int64_range (MaxGas b).

(** ** Concrete inputs *)

Definition mkSig (signer : string) (seq : N) : SignatureV2 :=
  {| Signer := signer; Sequence := seq |}.

(** A transaction of signer ["A"] with the given sequence, declaring
    [gas], with a payload of [n] zero bytes. *)
Definition sampleTx (n : nat) (gas : N) (seq : N) : Tx :=
  {| Payload := replicate n Byte.x00;
     GetGas := Some gas;
     GetSignaturesV2 := Some [mkSig "A" seq] |}.

(** A verifier whose build side encodes a transaction as its payload and
    whose validate side decodes every byte string as a transaction that
    declares one unit of gas per byte. *)
Definition sampleVerifier : ProposalTxVerifier :=
  {| PrepareProposalVerifyTx := fun tx => Some (Payload tx);
     ProcessProposalVerifyTx := fun txBz =>
       Some {| Payload := txBz;
               GetGas := Some (N.of_nat (length txBz));
               GetSignaturesV2 := Some [] |} |}.

(** A mempool whose iterator yields the given transactions. *)
Definition sampleMempool (txs : list Tx) : Mempool :=
  RealMempool (fun _ _ => txs) (fun _ => RemoveOk).

Definition nilContext : Context := {| ConsensusParamsBlock := None |}.

(** Three raw candidates of 6, 6 and 3 bytes under a byte budget of 10. *)
Definition skippingRequest : RequestPrepareProposal :=
  {| MaxTxBytes := 10;
     Txs := [replicate 6 Byte.x00; replicate 6 Byte.x01;
             replicate 3 Byte.x02] |}.

(** A one-byte transaction that declares the largest [uint64] gas. *)
Definition maxGasTx : Tx := sampleTx 1 18446744073709551615 0.

(** A verifier whose two sides agree: the build side encodes a transaction
    as its payload when the transaction declares one unit of gas per byte,
    and the validate side decodes every byte string with that gas. *)
Definition agreeingVerifier : ProposalTxVerifier :=
  {| PrepareProposalVerifyTx := fun tx =>
       if decide (GetGas tx = Some (N.of_nat (length (Payload tx))))
       then Some (Payload tx) else None;
     ProcessProposalVerifyTx := fun txBz =>
       Some {| Payload := txBz;
               GetGas := Some (N.of_nat (length txBz));
               GetSignaturesV2 := Some [] |} |}.

(** Signer ["A"] offers sequences 5, 6 and 8, four bytes and four units of
    gas each. *)
Definition gapMempool : Mempool :=
  sampleMempool [sampleTx 4 4 5; sampleTx 4 4 6; sampleTx 4 4 8].

Definition gapRequest : RequestPrepareProposal :=
  {| MaxTxBytes := 100; Txs := [] |}.

(** A verifier whose validate side fails on an empty byte string. *)
Definition strictVerifier : ProposalTxVerifier :=
  {| PrepareProposalVerifyTx := fun tx => Some (Payload tx);
     ProcessProposalVerifyTx := fun txBz =>
       match txBz with
       | [] => None
       | _ => Some {| Payload := txBz; GetGas := None;
                      GetSignaturesV2 := Some [] |}
       end |}.

(** ** Further functions of the file *)

(** [NoOpPrepareProposal]: the response is the request's transactions. *)
Definition NoOpPrepareProposal (req : RequestPrepareProposal) : list bytes :=
  Txs req.

(** Total gas the validator side attributes to a list of received
    transactions, as a natural number (no wrap-around). *)
Definition totalDeclaredGas (v : ProposalTxVerifier) (txs : list bytes) : N :=
  foldr (fun txBytes acc => declaredGas v txBytes + acc) 0 txs.

(** The handler with a real mempool, as its constructor builds it. *)
Definition realHandler (Select : Context -> list bytes -> list Tx)
    (Remove : Tx -> RemoveResult) (v : ProposalTxVerifier)
    : DefaultProposalHandler :=
  NewDefaultProposalHandler (RealMempool Select Remove) v.

(** A request with a negative byte limit. *)
Definition negativeLimitRequest : RequestPrepareProposal :=
  {| MaxTxBytes := -1;
     Txs := [replicate 6 Byte.x00; replicate 6 Byte.x01;
             replicate 3 Byte.x02] |}.

(** A request whose candidates fit a byte limit of 100. *)
Definition roomyRequest : RequestPrepareProposal :=
  {| MaxTxBytes := 100;
     Txs := [replicate 6 Byte.x00; []; replicate 3 Byte.x02] |}.

(** A verifier whose build side fails on transactions without a payload. *)
Definition payloadVerifier : ProposalTxVerifier :=
  {| PrepareProposalVerifyTx := fun tx =>
       match Payload tx with [] => None | bz => Some bz end;
     ProcessProposalVerifyTx := fun txBz =>
       Some {| Payload := txBz; GetGas := None;
               GetSignaturesV2 := Some [] |} |}.

(** A transaction whose signatures cannot be read. *)
Definition unsignedTx : Tx :=
  {| Payload := [Byte.x00]; GetGas := None; GetSignaturesV2 := None |}.

(** A verifier whose build side accepts payloads of at most 1000 bytes. *)
Definition boundedVerifier : ProposalTxVerifier :=
  {| PrepareProposalVerifyTx := fun tx =>
       if Nat.leb (length (Payload tx)) 1000 then Some (Payload tx) else None;
     ProcessProposalVerifyTx := fun txBz =>
       Some {| Payload := txBz; GetGas := None;
               GetSignaturesV2 := Some [] |} |}.

(** Two one-byte candidates that declare 5 and 2^64 - 1 gas. *)
Definition wrappingCalls : list (option Tx * bytes) :=
  [(Some (sampleTx 1 5 1), [Byte.x00]); (Some maxGasTx, [Byte.x01])].

(** A mempool that offers a transaction declaring 2^64 - 1 gas, then the
    next transaction of the same signer, declaring no gas. *)
Definition gasProbeHandler : DefaultProposalHandler :=
  realHandler (fun _ _ => [maxGasTx; sampleTx 1 0 1]) (fun _ => RemoveOk)
    sampleVerifier.

(** * Properties *)

(** ** Arithmetic of machine integers *)

Lemma add64_lt a b : add64 a b < two64.
Proof. unfold add64. apply N.mod_lt. discriminate. Qed.

Lemma add64_comm a b : add64 a b = add64 b a.
Proof. unfold add64. by rewrite N.add_comm. Qed.

Lemma add64_small a b : a + b < two64 -> add64 a b = a + b.
Proof. intros H. unfold add64. by apply N.mod_small. Qed.

Lemma add64_0_r a : a < two64 -> add64 a 0 = a.
Proof. intros H. rewrite add64_small; lia. Qed.


Lemma txSizeOf_small (txBz : bytes) :
  N.of_nat (length txBz) < two64 -> txSizeOf txBz = N.of_nat (length txBz).
Proof. intros H. unfold txSizeOf, wrap64. by apply N.mod_small. Qed.

Lemma uint64_of_int64_nonneg x :
  (0 <= x < 18446744073709551616)%Z -> uint64_of_int64 x = Z.to_N x.
Proof. intros H. unfold uint64_of_int64. by rewrite Z.mod_small. Qed.

Lemma uint64_of_int64_neg x :
  (-18446744073709551616 <= x < 0)%Z ->
  uint64_of_int64 x = Z.to_N (18446744073709551616 + x).
Proof.
  intros H. unfold uint64_of_int64. f_equal.
  symmetry. apply Z.mod_unique with (q := (-1)%Z); lia.
Qed.

(** ** The budgeted selector *)

Lemma selectUpdate_spec maxTxBytes maxBlockGas memTx txBz ts :
  (fitsBytes maxTxBytes txBz ts /\ fitsGas maxBlockGas memTx ts
   /\ selectUpdate maxTxBytes maxBlockGas memTx txBz ts
      = admittedState maxBlockGas memTx txBz ts)
  \/ (~ (fitsBytes maxTxBytes txBz ts /\ fitsGas maxBlockGas memTx ts)
      /\ selectUpdate maxTxBytes maxBlockGas memTx txBz ts = ts).
Proof.
  unfold selectUpdate, fitsBytes, fitsGas, admittedState.
  rewrite (add64_comm (txSizeOf txBz)), (add64_comm (txGasLimitOf memTx)).
  destruct (N.leb_spec (add64 (totalTxBytes ts) (txSizeOf txBz)) maxTxBytes)
    as [Hb|Hb].
  - destruct (N.ltb_spec 0 maxBlockGas) as [Hg|Hg].
    + destruct (N.leb_spec (add64 (totalTxGas ts) (txGasLimitOf memTx))
                  maxBlockGas) as [Hc|Hc].
      * left. auto.
      * right. split; [|done]. intros [_ [?|?]]; lia.
    + left. split; [done|]. split; [left; lia|done].
  - right. split; [|done]. intros [? _]. lia.
Qed.

Lemma admittedState_neq maxBlockGas memTx txBz ts :
  admittedState maxBlockGas memTx txBz ts <> ts.
Proof.
  intros H. apply (f_equal (fun s => length (selectedTxs s))) in H.
  simpl in H. rewrite length_app in H. simpl in H. lia.
Qed.

Lemma reachedCapacity_spec maxTxBytes maxBlockGas ts :
  reachedCapacity maxTxBytes maxBlockGas ts = true <->
  maxTxBytes <= totalTxBytes ts
  \/ (0 < maxBlockGas /\ maxBlockGas <= totalTxGas ts).
Proof.
  unfold reachedCapacity.
  rewrite orb_true_iff, andb_true_iff, !N.leb_le, N.ltb_lt. done.
Qed.

(** The selector keeps both totals within the budgets it is called with,
    provided they were within them before. *)
Lemma selectUpdate_budgets maxTxBytes maxBlockGas memTx txBz ts :
  totalTxBytes ts <= maxTxBytes ->
  (0 < maxBlockGas -> totalTxGas ts <= maxBlockGas) ->
  let ts' := selectUpdate maxTxBytes maxBlockGas memTx txBz ts in
  totalTxBytes ts' <= maxTxBytes
  /\ (0 < maxBlockGas -> totalTxGas ts' <= maxBlockGas).
Proof.
  intros Hb Hg ts'. subst ts'.
  destruct (selectUpdate_spec maxTxBytes maxBlockGas memTx txBz ts)
    as [(Fb & Fg & ->)|[_ ->]]; [|done].
  unfold fitsBytes, fitsGas, admittedState in *. simpl. split; [done|].
  intros Hpos. apply N.ltb_lt in Hpos as Hpos'. rewrite Hpos'.
  destruct Fg; lia.
Qed.

Lemma selectCalls_snoc maxTxBytes maxBlockGas calls c ts :
  selectCalls maxTxBytes maxBlockGas (calls ++ [c]) ts
  = selectUpdate maxTxBytes maxBlockGas c.1 c.2
      (selectCalls maxTxBytes maxBlockGas calls ts).
Proof. unfold selectCalls. by rewrite foldl_app. Qed.

(** From a cleared selector, after any sequence of [SelectTxForProposal]
    calls under fixed budgets, the counter [totalTxBytes] is at most
    [maxTxBytes] and, when [maxBlockGas > 0], the counter [totalTxGas] is at
    most [maxBlockGas]; when [maxBlockGas = 0], a candidate that is excluded
    at that point failed the byte test, and the outcome of the call does
    not depend on the gas the candidate declares. *)
Lemma selectCalls_counters_within_budgets maxTxBytes maxBlockGas calls ts0 :
  let ts := selectCalls maxTxBytes maxBlockGas calls (Clear ts0) in
  totalTxBytes ts <= maxTxBytes
  /\ (0 < maxBlockGas -> totalTxGas ts <= maxBlockGas)
  /\ (maxBlockGas = 0 ->
      forall memTx txBz,
        ((SelectTxForProposal maxTxBytes maxBlockGas memTx txBz ts).1 = ts ->
         maxTxBytes < add64 (totalTxBytes ts) (txSizeOf txBz))
        /\ forall memTx',
             SelectTxForProposal maxTxBytes maxBlockGas memTx' txBz ts
             = SelectTxForProposal maxTxBytes maxBlockGas memTx txBz ts).
Proof.
  intros ts. subst ts.
  assert (Hinv : totalTxBytes (selectCalls maxTxBytes maxBlockGas calls (Clear ts0))
                   <= maxTxBytes
                 /\ (0 < maxBlockGas ->
                     totalTxGas (selectCalls maxTxBytes maxBlockGas calls (Clear ts0))
                       <= maxBlockGas)).
  { induction calls as [|c calls IH] using rev_ind.
    - simpl. split; lia.
    - rewrite selectCalls_snoc. destruct IH as [IHb IHg].
      by apply selectUpdate_budgets. }
  destruct Hinv as [Hb Hg]. split; [done|]. split; [done|].
  intros -> memTx txBz. split.
  - simpl. intros Hsame.
    destruct (selectUpdate_spec maxTxBytes 0 memTx txBz
                (selectCalls maxTxBytes 0 calls (Clear ts0)))
      as [(_ & _ & Heq)|[Hno _]].
    + rewrite Heq in Hsame. by apply admittedState_neq in Hsame.
    + unfold fitsBytes, fitsGas in Hno.
      apply N.lt_nge. intros Hle. apply Hno. auto.
  - intros memTx'. unfold SelectTxForProposal, selectUpdate. simpl. done.
Qed.

Lemma totalLen_cons tx rest :
  totalLen (tx :: rest) = N.of_nat (length tx) + totalLen rest.
Proof. reflexivity. Qed.

Lemma totalGas_cons memTx rest :
  totalGas (memTx :: rest) = txGasLimitOf memTx + totalGas rest.
Proof. reflexivity. Qed.

Lemma selectCalls_cons maxTxBytes maxBlockGas c rest ts :
  selectCalls maxTxBytes maxBlockGas (c :: rest) ts
  = selectCalls maxTxBytes maxBlockGas rest
      (selectUpdate maxTxBytes maxBlockGas c.1 c.2 ts).
Proof. reflexivity. Qed.

(** When the lengths (and, under a gas budget, the declared gas) of all the
    candidates offered sum to less than 2^64, no addition of the selector
    wraps around: its totals are the exact sums over the admitted
    candidates, which are the selected list. *)
Lemma selectCalls_totals_exact maxTxBytes maxBlockGas calls :
  forall ts,
    totalTxBytes ts + totalLen calls.*2 < two64 ->
    let ts' := selectCalls maxTxBytes maxBlockGas calls ts in
    let adm := admittedCalls maxTxBytes maxBlockGas calls ts in
    selectedTxs ts' = selectedTxs ts ++ adm.*2
    /\ adm `sublist_of` calls
    /\ totalTxBytes ts' = totalTxBytes ts + totalLen adm.*2
    /\ (0 < maxBlockGas ->
        totalTxGas ts + totalGas calls.*1 < two64 ->
        totalTxGas ts' = totalTxGas ts + totalGas adm.*1).
Proof.
  induction calls as [|[memTx txBz] rest IH]; intros ts Hb.
  - simpl. rewrite app_nil_r. repeat split; try done; cbn; lia.
  - cbn zeta. rewrite selectCalls_cons.
    cbn [admittedCalls SelectTxForProposal fst snd].
    rewrite fmap_cons, totalLen_cons in Hb. cbn [snd] in Hb.
    assert (Hsz : txSizeOf txBz = N.of_nat (length txBz))
      by (apply txSizeOf_small; lia).
    destruct (selectUpdate_spec maxTxBytes maxBlockGas memTx txBz ts)
      as [(Fb & Fg & ->)|[_ ->]].
    + assert (Hbytes : totalTxBytes (admittedState maxBlockGas memTx txBz ts)
                       = totalTxBytes ts + N.of_nat (length txBz)).
      { cbn. rewrite Hsz. apply add64_small. lia. }
      specialize (IH (admittedState maxBlockGas memTx txBz ts)).
      cbn zeta in IH. rewrite Hbytes in IH.
      destruct IH as (Hsel & Hsub & Htot & Hgas); [lia|].
      assert (Hgrow : Nat.eqb
                (length (selectedTxs (admittedState maxBlockGas memTx txBz ts)))
                (length (selectedTxs ts)) = false).
      { apply Nat.eqb_neq. cbn. rewrite length_app. simpl. lia. }
      rewrite Hgrow. cbn [app]. rewrite !fmap_cons. cbn [fst snd].
      rewrite !totalLen_cons, !totalGas_cons.
      split; [|split; [|split]].
      * rewrite Hsel. cbn. by rewrite <- app_assoc.
      * by apply sublist_skip.
      * lia.
      * intros Hpos Hg.
        assert (Hgas0 : totalTxGas (admittedState maxBlockGas memTx txBz ts)
                        = totalTxGas ts + txGasLimitOf memTx).
        { cbn. apply N.ltb_lt in Hpos as ->. apply add64_small. lia. }
        rewrite Hgas by (try done; lia). lia.
    + specialize (IH ts). cbn zeta in IH.
      destruct IH as (Hsel & Hsub & Htot & Hgas); [lia|].
      rewrite Nat.eqb_refl. cbn [app]. rewrite !fmap_cons. cbn [fst snd].
      rewrite !totalGas_cons.
      split; [done|]. split; [by apply sublist_cons|]. split; [done|].
      intros Hpos Hg. apply Hgas; [done|]. lia.
Qed.

(** C4 as the specification words it fails: under [maxBlockGas = 0] an
    admitted candidate is appended and its size is added, but its gas is
    not added to [totalTxGas]. *)
Lemma admission_without_gas_budget_leaves_gas_total :
  ~ (forall maxTxBytes maxBlockGas memTx txBz ts,
       (SelectTxForProposal maxTxBytes maxBlockGas memTx txBz ts).1
         = admittedWithGas memTx txBz ts
       <-> fitsBytes maxTxBytes txBz ts /\ fitsGas maxBlockGas memTx ts).
Proof.
  intros H.
  specialize (H 100 0 (Some (sampleTx 1 300 5)) [Byte.x00] NewDefaultTxSelector).
  destruct H as [_ H].
  assert (Hfit : fitsBytes 100 [Byte.x00] NewDefaultTxSelector
                 /\ fitsGas 0 (Some (sampleTx 1 300 5)) NewDefaultTxSelector).
  { split; [|by left]. unfold fitsBytes. by vm_compute. }
  specialize (H Hfit).
  apply (f_equal totalTxGas) in H. vm_compute in H. discriminate.
Qed.

(** C4 (amended): one call admits the candidate -- appends [txBz], adds its
    size to [totalTxBytes] and, only when [maxBlockGas > 0], adds its gas
    to [totalTxGas] -- if and only if the byte test and the gas test pass
    (sums in [uint64] arithmetic); otherwise the selector is unchanged; and
    the call returns true if and only if, after the decision, the byte
    total has reached [maxTxBytes] or, with [maxBlockGas > 0], the gas total
    has reached [maxBlockGas]. *)
Theorem select_admits_iff_fits maxTxBytes maxBlockGas memTx txBz ts :
  let '(ts', halt) :=
    SelectTxForProposal maxTxBytes maxBlockGas memTx txBz ts in
  (ts' = admittedState maxBlockGas memTx txBz ts
   <-> fitsBytes maxTxBytes txBz ts /\ fitsGas maxBlockGas memTx ts)
  /\ (ts' = ts
      <-> ~ (fitsBytes maxTxBytes txBz ts /\ fitsGas maxBlockGas memTx ts))
  /\ (halt = true
      <-> maxTxBytes <= totalTxBytes ts'
          \/ (0 < maxBlockGas /\ maxBlockGas <= totalTxGas ts')).
Proof.
  unfold SelectTxForProposal.
  split; [|split]; [| |apply reachedCapacity_spec].
  - destruct (selectUpdate_spec maxTxBytes maxBlockGas memTx txBz ts)
      as [(Fb & Fg & ->)|[Hno ->]]; split; try done.
    intros Heq. symmetry in Heq. by apply admittedState_neq in Heq.
  - destruct (selectUpdate_spec maxTxBytes maxBlockGas memTx txBz ts)
      as [(Fb & Fg & ->)|[Hno ->]]; split; try done.
    + intros Heq. by apply admittedState_neq in Heq.
    + intros Hno. by destruct Hno.
Qed.

(** C9: a call that does not admit the candidate (the byte test fails, or
    the gas test fails under [maxBlockGas > 0]) leaves [totalTxBytes],
    [totalTxGas] and the selected list as they were, and only produces the
    halt flag. *)
Theorem rejected_candidate_leaves_selector_unchanged
    maxTxBytes maxBlockGas memTx txBz ts :
  maxTxBytes < add64 (totalTxBytes ts) (txSizeOf txBz)
  \/ (0 < maxBlockGas
      /\ maxBlockGas < add64 (totalTxGas ts) (txGasLimitOf memTx)) ->
  let '(ts', halt) :=
    SelectTxForProposal maxTxBytes maxBlockGas memTx txBz ts in
  totalTxBytes ts' = totalTxBytes ts
  /\ totalTxGas ts' = totalTxGas ts
  /\ selectedTxs ts' = selectedTxs ts
  /\ ts' = ts
  /\ halt = reachedCapacity maxTxBytes maxBlockGas ts.
Proof.
  intros Hrej. unfold SelectTxForProposal.
  destruct (selectUpdate_spec maxTxBytes maxBlockGas memTx txBz ts)
    as [(Fb & Fg & _)|[_ ->]]; [|done].
  unfold fitsBytes, fitsGas in *. exfalso.
  destruct Hrej as [?|[? ?]]; [lia|]. destruct Fg; lia.
Qed.

Lemma rejected_candidate_leaves_selector_unchanged_witness :
  let ts := NewDefaultTxSelector in
  let '(ts', halt) :=
    SelectTxForProposal 1 0 None [Byte.x00; Byte.x00] ts in
  totalTxBytes ts' = totalTxBytes ts
  /\ totalTxGas ts' = totalTxGas ts
  /\ selectedTxs ts' = selectedTxs ts
  /\ ts' = ts
  /\ halt = reachedCapacity 1 0 ts.
Proof.
  apply (rejected_candidate_leaves_selector_unchanged
           1 0 None [Byte.x00; Byte.x00] NewDefaultTxSelector).
  left. vm_compute. reflexivity.
Defined.



(** ** The fallback path of the builder (nil or no-op mempool) *)

Lemma longestFittingPrefix_prefix budget txs :
  longestFittingPrefix budget txs `prefix_of` txs.
Proof.
  revert budget. induction txs as [|tx rest IH]; intros budget; simpl.
  - done.
  - destruct (N.leb_spec (N.of_nat (length tx)) budget).
    + by apply prefix_cons.
    + apply prefix_nil.
Qed.

Lemma longestFittingPrefix_fits budget txs :
  totalLen (longestFittingPrefix budget txs) <= budget.
Proof.
  revert budget. induction txs as [|tx rest IH]; intros budget; simpl.
  - lia.
  - destruct (N.leb_spec (N.of_nat (length tx)) budget) as [Hle|Hgt].
    + rewrite totalLen_cons.
      specialize (IH (budget - N.of_nat (length tx))). lia.
    + cbn. lia.
Qed.

(** [longestFittingPrefix] is the longest prefix that fits: every prefix
    of the list that fits the budget is a prefix of it. *)
Lemma longestFittingPrefix_longest budget txs p :
  p `prefix_of` txs -> totalLen p <= budget ->
  p `prefix_of` longestFittingPrefix budget txs.
Proof.
  revert budget p. induction txs as [|tx rest IH]; intros budget p Hp Hfit.
  - apply prefix_nil_inv in Hp as ->. done.
  - destruct p as [|x p]; [apply prefix_nil|].
    apply prefix_cons_inv_1 in Hp as Hx. subst x.
    apply prefix_cons_inv_2 in Hp. rewrite totalLen_cons in Hfit. simpl.
    destruct (N.leb_spec (N.of_nat (length tx)) budget) as [Hle|Hgt]; [|lia].
    apply prefix_cons, IH; [done|]. lia.
Qed.

Lemma greedyFill_sublist budget txs : greedyFill budget txs `sublist_of` txs.
Proof.
  revert budget. induction txs as [|tx rest IH]; intros budget; simpl.
  - done.
  - destruct (N.leb_spec (N.of_nat (length tx)) budget).
    + apply sublist_skip. destruct (_ =? 0); [apply sublist_nil_l|apply IH].
    + apply sublist_cons. destruct (_ =? 0); [apply sublist_nil_l|apply IH].
Qed.

Lemma greedyFill_fits budget txs : totalLen (greedyFill budget txs) <= budget.
Proof.
  revert budget. induction txs as [|tx rest IH]; intros budget; simpl.
  - lia.
  - destruct (N.leb_spec (N.of_nat (length tx)) budget) as [Hle|Hgt].
    + rewrite totalLen_cons.
      destruct (_ =? 0); [cbn; lia|].
      specialize (IH (budget - N.of_nat (length tx))). lia.
    + destruct (_ =? 0); [cbn; lia|apply IH].
Qed.

Lemma greedyFill_longestFittingPrefix budget txs :
  Forall (fun tx : bytes => tx <> []) txs ->
  longestFittingPrefix budget txs `prefix_of` greedyFill budget txs.
Proof.
  intros Hne. revert budget.
  induction Hne as [|tx rest Htx Hrest IH]; intros budget; simpl.
  - done.
  - destruct (N.leb_spec (N.of_nat (length tx)) budget) as [Hle|Hgt];
      [|apply prefix_nil].
    apply prefix_cons.
    destruct (N.eqb_spec (budget - N.of_nat (length tx)) 0) as [Hz|Hnz];
      [|apply IH].
    rewrite Hz. destruct Hrest as [|tx' rest' Htx' _]; simpl; [done|].
    destruct (N.leb_spec (N.of_nat (length tx')) 0) as [Hle'|];
      [|done].
    destruct tx'; [done|]. simpl in Hle'. lia.
Qed.

Lemma reachedCapacity_no_gas maxTxBytes maxBlockGas ts :
  totalTxGas ts = 0 ->
  reachedCapacity maxTxBytes maxBlockGas ts
  = (maxTxBytes <=? totalTxBytes ts).
Proof.
  intros Hg. unfold reachedCapacity. rewrite Hg.
  destruct (N.ltb_spec 0 maxBlockGas) as [Hpos|Hz]; simpl.
  - destruct (N.leb_spec maxBlockGas 0); [lia|]. by rewrite orb_false_r.
  - by rewrite orb_false_r.
Qed.

(** The fallback loop computes the greedy fill of the budget that is left. *)
Lemma noOpLoop_greedyFill maxTxBytes maxBlockGas txs ts :
  totalTxGas ts = 0 ->
  totalTxBytes ts <= maxTxBytes ->
  totalTxBytes ts + totalLen txs < two64 ->
  selectedTxs (noOpLoop maxTxBytes maxBlockGas txs ts)
  = selectedTxs ts ++ greedyFill (maxTxBytes - totalTxBytes ts) txs.
Proof.
  revert ts. induction txs as [|tx rest IH]; intros ts Hg Hb Ho.
  - simpl. by rewrite app_nil_r.
  - cbn [noOpLoop SelectTxForProposal greedyFill].
    rewrite totalLen_cons in Ho.
    assert (Hsz : txSizeOf tx = N.of_nat (length tx))
      by (apply txSizeOf_small; lia).
    assert (Hadd : add64 (totalTxBytes ts) (txSizeOf tx)
                   = totalTxBytes ts + N.of_nat (length tx))
      by (rewrite Hsz; apply add64_small; lia).
    destruct (selectUpdate_spec maxTxBytes maxBlockGas None tx ts)
      as [(Fb & Fg & ->)|[Hno ->]].
    + unfold fitsBytes in Fb. rewrite Hadd in Fb.
      assert (Hg' : totalTxGas (admittedState maxBlockGas None tx ts) = 0).
      { simpl. rewrite Hg. by destruct (0 <? maxBlockGas). }
      rewrite reachedCapacity_no_gas by done.
      cbn [admittedState totalTxBytes]. rewrite Hadd.
      destruct (N.leb_spec (N.of_nat (length tx))
                  (maxTxBytes - totalTxBytes ts)) as [_|?]; [|lia].
      destruct (N.leb_spec maxTxBytes
                  (totalTxBytes ts + N.of_nat (length tx))) as [Hfull|Hroom].
      * destruct (N.eqb_spec
                    (maxTxBytes - totalTxBytes ts - N.of_nat (length tx)) 0);
          [done|lia].
      * destruct (N.eqb_spec
                    (maxTxBytes - totalTxBytes ts - N.of_nat (length tx)) 0);
          [lia|].
        rewrite IH; [|done|cbn [admittedState totalTxBytes]; lia
                     |cbn [admittedState totalTxBytes]; lia].
        cbn [admittedState totalTxBytes selectedTxs]. rewrite Hadd.
        rewrite <- app_assoc. simpl. do 3 f_equal. lia.
    + assert (~ fitsBytes maxTxBytes tx ts).
      { intros Fb. apply Hno. split; [done|]. unfold fitsGas.
        rewrite Hg. right. cbn. apply N.le_0_l. }
      unfold fitsBytes in *. rewrite Hadd in *.
      rewrite reachedCapacity_no_gas by done.
      destruct (N.leb_spec (N.of_nat (length tx))
                  (maxTxBytes - totalTxBytes ts)) as [?|_]; [lia|].
      destruct (N.leb_spec maxTxBytes (totalTxBytes ts)) as [Hfull|Hroom].
      * destruct (N.eqb_spec (maxTxBytes - totalTxBytes ts) 0);
          [by rewrite app_nil_r|lia].
      * destruct (N.eqb_spec (maxTxBytes - totalTxBytes ts) 0); [lia|].
        apply IH; [done|done|lia].
Qed.

(** C6 as stated fails: with a byte budget of 10 and candidates of 6, 6 and
    3 bytes, the response holds the first and the third candidate, while
    the longest fitting prefix is the first candidate alone. *)
Lemma noop_response_is_not_a_prefix :
  ~ (forall mp v ctx req,
       isNilOrNoOp mp = true ->
       (PrepareProposalHandler (NewDefaultProposalHandler mp v) ctx req).1
       = PrepareOk (longestFittingPrefix (uint64_of_int64 (MaxTxBytes req))
                      (Txs req))).
Proof.
  intros H.
  specialize (H NoOpMempool sampleVerifier nilContext skippingRequest eq_refl).
  vm_compute in H. discriminate.
Qed.

(** C6 (amended): with a nil or no-op mempool the response is the greedy
    fill of the byte budget by the raw candidates in offered order -- each
    candidate is admitted exactly when it fits into what is left of
    [maxTxBytes], and the scan ends once the budget is used up -- whatever
    the gas budget of the context.  It is an order-preserving sub-list of
    the candidates whose total length is at most [maxTxBytes], and it
    starts with the longest fitting prefix when no candidate is empty. *)
Theorem noop_response_is_greedy_fill mp v ctx req :
  isNilOrNoOp mp = true ->
  totalLen (Txs req) < two64 ->
  let maxTxBytes := uint64_of_int64 (MaxTxBytes req) in
  let resp := greedyFill maxTxBytes (Txs req) in
  (PrepareProposalHandler (NewDefaultProposalHandler mp v) ctx req).1
  = PrepareOk resp
  /\ resp `sublist_of` Txs req
  /\ totalLen resp <= maxTxBytes
  /\ (Forall (fun tx : bytes => tx <> []) (Txs req) ->
      longestFittingPrefix maxTxBytes (Txs req) `prefix_of` resp).
Proof.
  intros Hmp Hlen maxTxBytes resp. subst maxTxBytes resp.
  split; [|split; [apply greedyFill_sublist|split;
             [apply greedyFill_fits|apply greedyFill_longestFittingPrefix]]].
  assert (Hloop : SelectedTxs
            (noOpLoop (uint64_of_int64 (MaxTxBytes req))
               (prepareMaxBlockGas ctx) (Txs req) NewDefaultTxSelector)
          = greedyFill (uint64_of_int64 (MaxTxBytes req)) (Txs req)).
  { unfold SelectedTxs. rewrite noOpLoop_greedyFill; simpl.
    - by rewrite N.sub_0_r.
    - done.
    - apply N.le_0_l.
    - done. }
  unfold PrepareProposalHandler, NewDefaultProposalHandler. simpl.
  destruct mp; simpl in *; try discriminate; by rewrite Hloop.
Qed.

Lemma noop_response_is_greedy_fill_witness :
  (PrepareProposalHandler
     (NewDefaultProposalHandler NoOpMempool sampleVerifier)
     nilContext skippingRequest).1
  = PrepareOk (greedyFill 10 (Txs skippingRequest))
  /\ greedyFill 10 (Txs skippingRequest) `sublist_of` Txs skippingRequest
  /\ totalLen (greedyFill 10 (Txs skippingRequest)) <= 10
  /\ (Forall (fun tx : bytes => tx <> []) (Txs skippingRequest) ->
      longestFittingPrefix 10 (Txs skippingRequest)
        `prefix_of` greedyFill 10 (Txs skippingRequest)).
Proof.
  apply (noop_response_is_greedy_fill
           NoOpMempool sampleVerifier nilContext skippingRequest).
  - reflexivity.
  - vm_compute. reflexivity.
Defined.

(** ** The proposal validator *)

Lemma processLoop_reject_iff v maxBlockGas total txs :
  total < two64 ->
  processLoop v maxBlockGas total txs = REJECT <->
  Exists (fun txBytes => ~ verifies v txBytes) txs
  \/ ((0 < maxBlockGas)%Z
      /\ exists k, (1 <= k <= length txs)%nat
           /\ uint64_of_int64 maxBlockGas
              < runningGasFrom v total (take k txs)).
Proof.
  revert total. induction txs as [|tx rest IH]; intros total Htot.
  - simpl. split; [done|].
    intros [H|(_ & k & Hk & _)]; [by apply Exists_nil in H|simpl in Hk; lia].
  - cbn [processLoop]. unfold verifies at 1. rewrite Exists_cons.
    destruct (ProcessProposalVerifyTx v tx) as [t|] eqn:Hv.
    2:{ split; [|done]. intros _. left. left. by intros [? ?]. }
    assert (Hstep : forall l,
              runningGasFrom v total (tx :: l)
              = runningGasFrom v
                  (match GetGas t with
                   | Some g => add64 total g
                   | None => total
                   end) l).
    { intros l. unfold runningGasFrom. simpl. f_equal.
      unfold declaredGas. rewrite Hv. simpl.
      destruct (GetGas t); [done|by apply add64_0_r]. }
    assert (Htot' : match GetGas t with
                    | Some g => add64 total g
                    | None => total
                    end < two64).
    { destruct (GetGas t); [apply add64_lt|done]. }
    destruct (Z.ltb_spec 0 maxBlockGas) as [Hpos|Hnpos].
    + destruct (N.ltb_spec (uint64_of_int64 maxBlockGas)
                  (match GetGas t with
                   | Some g => add64 total g
                   | None => total
                   end)) as [Hex|Hok].
      * split; [|done]. intros _. right. split; [done|].
        exists 1%nat. split; [simpl; lia|].
        rewrite firstn_cons, firstn_O, Hstep. done.
      * rewrite IH by done. split.
        -- intros [H|(_ & k & Hk & Hgt)]; [left; by right|].
           right. split; [done|]. exists (S k). split; [simpl; lia|].
           by rewrite firstn_cons, Hstep.
        -- intros [[H|H]|(_ & k & Hk & Hgt)].
           ++ exfalso. apply H. by exists t.
           ++ by left.
           ++ destruct k as [|k]; [lia|].
              rewrite firstn_cons, Hstep in Hgt.
              destruct k as [|k].
              { rewrite firstn_O in Hgt. unfold runningGasFrom in Hgt.
                simpl in Hgt. lia. }
              right. split; [done|]. exists (S k).
              split; [simpl in Hk; lia|done].
    + rewrite IH by done. split.
      * intros [H|(? & _)]; [left; by right|lia].
      * intros [[H|H]|(? & _)]; [|by left|lia].
        exfalso. apply H. by exists t.
Qed.

Lemma status_not_reject s : s = ACCEPT <-> s <> REJECT.
Proof. destruct s; split; intros; congruence. Qed.

Lemma take_bounded (txs : list bytes) k :
  exists k', (k' <= length txs)%nat /\ take k txs = take k' txs.
Proof.
  destruct (Nat.le_gt_cases k (length txs)).
  - by exists k.
  - exists (length txs). split; [done|].
    rewrite !take_ge; [done|lia..].
Qed.

Lemma processLoop_reject_spec v maxBlockGas txs :
  processLoop v maxBlockGas 0 txs = REJECT <->
  Exists (fun txBytes => ~ verifies v txBytes) txs
  \/ ((0 < maxBlockGas)%Z
      /\ exists k, uint64_of_int64 maxBlockGas < runningGas v (take k txs)).
Proof.
  rewrite processLoop_reject_iff by reflexivity. unfold runningGas.
  split; (intros [H|(Hpos & k & Hk)]; [by left|right; split; [done|]]).
  - exists k. by destruct Hk.
  - destruct (take_bounded txs k) as (k' & Hk' & Heq).
    rewrite Heq in Hk. exists k'. split; [|done]. split; [|done].
    destruct k'; [|lia]. rewrite take_0 in Hk.
    unfold runningGasFrom in Hk. simpl in Hk. lia.
Qed.

Lemma processLoop_accept_spec v maxBlockGas txs :
  processLoop v maxBlockGas 0 txs = ACCEPT <->
  Forall (verifies v) txs
  /\ ((0 < maxBlockGas)%Z ->
      forall k, runningGas v (take k txs) <= uint64_of_int64 maxBlockGas).
Proof.
  rewrite status_not_reject, processLoop_reject_spec. split.
  - intros Hno. split.
    + apply Forall_forall. intros x Hx.
      destruct (ProcessProposalVerifyTx v x) as [t|] eqn:Hv;
        [unfold verifies; rewrite Hv; by exists t|].
      exfalso. apply Hno. left. apply Exists_exists. exists x.
      split; [done|]. unfold verifies. rewrite Hv. by intros [? ?].
    + intros Hpos k. apply N.le_ngt. intros Hgt. apply Hno. right. eauto.
  - intros [Hall Hgas] [Hex|(Hpos & k & Hgt)].
    + apply Exists_exists in Hex as (x & Hx & Hn).
      apply Hn. by eapply Forall_forall in Hall.
    + specialize (Hgas Hpos k). lia.
Qed.

(** Without a positive budget the validator only checks the verifier. *)
Lemma processLoop_no_budget v maxBlockGas txs :
  (maxBlockGas <= 0)%Z ->
  processLoop v maxBlockGas 0 txs = ACCEPT <-> Forall (verifies v) txs.
Proof.
  intros Hle. rewrite processLoop_accept_spec. split; [by intros [? _]|].
  intros H. split; [done|]. lia.
Qed.


(** ** Conversion of the block gas limit *)

Lemma prepareMaxBlockGas_zero_iff g :
  int64_range g -> prepareMaxBlockGas (contextWithMaxGas g) = 0 <-> g = 0%Z.
Proof.
  intros Hr. unfold int64_range in Hr.
  change (prepareMaxBlockGas (contextWithMaxGas g)) with (uint64_of_int64 g).
  destruct (Z.neg_nonneg_cases g) as [Hneg|Hpos].
  - rewrite uint64_of_int64_neg by lia. lia.
  - rewrite uint64_of_int64_nonneg by lia. lia.
Qed.

(** The conversion of the block gas limit seen from the selector and from
    the validator: for a negative [Block.MaxGas], [uint64(b.MaxGas)] is
    [2^64 + MaxGas], a positive budget under which the selector applies the
    gas test and adds the gas of what it admits to [totalTxGas]; the
    validator, for every [MaxGas <= 0], checks the verifier only; the
    converted budget is zero exactly when [MaxGas = 0]. *)
Lemma max_gas_conversion_selector g :
  int64_range g ->
  let ctx := contextWithMaxGas g in
  (prepareMaxBlockGas ctx = 0 <-> g = 0%Z)
  /\ ((g < 0)%Z ->
      prepareMaxBlockGas ctx = Z.to_N (18446744073709551616 + g)
      /\ 0 < prepareMaxBlockGas ctx
      /\ (forall maxTxBytes memTx txBz ts,
            let ts' := (SelectTxForProposal maxTxBytes (prepareMaxBlockGas ctx)
                          memTx txBz ts).1 in
            ts' <> ts ->
            add64 (totalTxGas ts) (txGasLimitOf memTx) <= prepareMaxBlockGas ctx
            /\ totalTxGas ts' = add64 (totalTxGas ts) (txGasLimitOf memTx))
      /\ SelectTxForProposal 100 (prepareMaxBlockGas ctx) (Some maxGasTx)
           [Byte.x00] NewDefaultTxSelector
         <> SelectTxForProposal 100 0 (Some maxGasTx)
              [Byte.x00] NewDefaultTxSelector)
  /\ (g = (-1)%Z -> prepareMaxBlockGas ctx = 18446744073709551615)
  /\ ((g <= 0)%Z ->
      forall Select Remove v sel req,
        ProcessProposalHandler
          {| mempool := RealMempool Select Remove;
             txVerifier := v; txSelector := sel |} ctx req = ACCEPT
        <-> Forall (verifies v) (ProposalTxs req))
  /\ (g = 0%Z ->
      forall maxTxBytes memTx memTx' txBz ts,
        SelectTxForProposal maxTxBytes (prepareMaxBlockGas ctx) memTx txBz ts
        = SelectTxForProposal maxTxBytes (prepareMaxBlockGas ctx) memTx' txBz ts).
Proof.
  intros Hr ctx. subst ctx.
  split; [by apply prepareMaxBlockGas_zero_iff|].
  split; [|split; [|split]].
  - intros Hneg. unfold int64_range in Hr.
    assert (Hconv : prepareMaxBlockGas (contextWithMaxGas g)
                    = Z.to_N (18446744073709551616 + g)).
    { change (prepareMaxBlockGas (contextWithMaxGas g))
        with (uint64_of_int64 g).
      apply uint64_of_int64_neg. lia. }
    split; [done|]. split; [lia|]. split.
    + intros maxTxBytes memTx txBz ts ts' Hne. subst ts'.
      unfold SelectTxForProposal in *. simpl fst in *.
      destruct (selectUpdate_spec maxTxBytes
                  (prepareMaxBlockGas (contextWithMaxGas g)) memTx txBz ts)
        as [(Fb & Fg & Heq)|[_ Heq]]; [|done].
      rewrite Heq. unfold admittedState. cbn [totalTxGas].
      assert (Hpos : (0 <? prepareMaxBlockGas (contextWithMaxGas g)) = true)
        by (apply N.ltb_lt; lia).
      rewrite Hpos. split; [|done]. destruct Fg; [lia|done].
    + rewrite Hconv. intros Heq.
      unfold SelectTxForProposal in Heq.
      apply (f_equal (fun p => (totalTxGas p.1, length (selectedTxs p.1))))
        in Heq.
      destruct (selectUpdate_spec 100 (Z.to_N (18446744073709551616 + g))
                  (Some maxGasTx) [Byte.x00] NewDefaultTxSelector)
        as [(Fb & Fg & Hup)|[_ Hup]];
        cbn zeta beta in Heq; cbn [fst] in Heq; rewrite Hup in Heq.
      * unfold admittedState in Heq. cbn [totalTxGas selectedTxs] in Heq.
        assert (Hpos : (0 <? Z.to_N (18446744073709551616 + g)) = true)
          by (apply N.ltb_lt; lia).
        rewrite Hpos in Heq. vm_compute in Heq. discriminate.
      * vm_compute in Heq. discriminate.
  - intros ->. reflexivity.
  - intros Hle Select Remove v sel req. unfold ProcessProposalHandler. simpl.
    by apply processLoop_no_budget.
  - intros -> maxTxBytes memTx memTx' txBz ts. reflexivity.
Qed.

(** ** The signer-sequence filter *)

Lemma checkSigners_pass_iff recorded sigs acc :
  (checkSigners recorded sigs acc).1 = true
  <-> Forall (sigAcceptable recorded) sigs.
Proof.
  revert acc. induction sigs as [|sig rest IH]; intros acc.
  - simpl. split; [by constructor|done].
  - cbn [checkSigners]. rewrite Forall_cons. unfold sigAcceptable at 1.
    destruct (recorded !! Signer sig) as [s|] eqn:Hrec.
    + destruct (N.eqb_spec (add64 s 1) (Sequence sig)) as [Heq|Hne]; simpl.
      * rewrite IH. split; [|by intros [_ ?]].
        intros H. split; [|done]. intros s' [= <-]. done.
      * split; [done|]. intros [H _]. specialize (H s eq_refl). congruence.
    + rewrite IH. split; [|by intros [_ ?]]. intros H. split; [|done]. done.
Qed.

(** The map a passing filter builds gives each signer of the list its last
    listed sequence, over what the map held before. *)
Lemma checkSigners_lookup recorded sigs acc m signer :
  checkSigners recorded sigs acc = (true, m) ->
  m !! signer
  = foldl (fun o sig =>
             if decide (Signer sig = signer) then Some (Sequence sig) else o)
          (acc !! signer) sigs.
Proof.
  revert acc. induction sigs as [|sig rest IH]; intros acc Hc.
  - simpl in *. by injection Hc as <-.
  - cbn [checkSigners] in Hc. cbn [foldl].
    assert (Hins : (<[Signer sig := Sequence sig]> acc) !! signer
                   = if decide (Signer sig = signer)
                     then Some (Sequence sig) else acc !! signer).
    { case_decide as Hd.
      - rewrite <- Hd. apply lookup_insert_eq.
      - by apply lookup_insert_ne. }
    rewrite <- Hins.
    destruct (recorded !! Signer sig) as [s|]; [|by apply IH].
    destruct (negb (add64 s 1 =? Sequence sig)); [done|by apply IH].
Qed.

Lemma checkSigners_lastSeq recorded sigs m signer :
  checkSigners recorded sigs ∅ = (true, m) ->
  m !! signer = lastSeq signer sigs.
Proof.
  intros Hc. rewrite (checkSigners_lookup _ _ _ _ signer Hc).
  by rewrite lookup_empty.
Qed.

Lemma foldl_lastSeq_elem signer sigs init s :
  foldl (fun o sig =>
           if decide (Signer sig = signer) then Some (Sequence sig) else o)
        init sigs = Some s ->
  init = Some s
  \/ exists sig, sig ∈ sigs /\ Signer sig = signer /\ Sequence sig = s.
Proof.
  revert init. induction sigs as [|sig rest IH]; intros init Hf.
  - by left.
  - cbn [foldl] in Hf. apply IH in Hf as [Hi|(sg & Hin & Hs & Hq)].
    + case_decide as Hd; [|by left].
      right. exists sig. split; [by left|]. split; [done|congruence].
    + right. exists sg. split; [by right|done].
Qed.

Lemma lastSeq_elem signer sigs s :
  lastSeq signer sigs = Some s ->
  exists sig, sig ∈ sigs /\ Signer sig = signer /\ Sequence sig = s.
Proof.
  intros H. apply foldl_lastSeq_elem in H as [?|?]; [done|done].
Qed.

(** What the loop over [txSignersSeqs] leaves in the recorded map. *)
Lemma updateSeqs_lookup added txSignersSeqs recorded signer :
  updateSeqs added txSignersSeqs recorded !! signer
  = match txSignersSeqs !! signer with
    | Some seq =>
        if added then Some seq
        else match recorded !! signer with
             | Some s => Some s
             | None => Some (sub64 seq 1)
             end
    | None => recorded !! signer
    end.
Proof.
  unfold updateSeqs. revert signer.
  apply (map_fold_weak_ind
           (fun (r : gmap string N) (m : gmap string N) =>
              forall signer,
                r !! signer
                = match m !! signer with
                  | Some seq =>
                      if added then Some seq
                      else match recorded !! signer with
                           | Some s => Some s
                           | None => Some (sub64 seq 1)
                           end
                  | None => recorded !! signer
                  end)).
  - intros signer. by rewrite lookup_empty.
  - intros i x m r Hi IH signer.
    destruct (decide (i = signer)) as [->|Hne].
    + rewrite lookup_insert_eq. specialize (IH signer). rewrite Hi in IH.
      destruct added; [by rewrite lookup_insert_eq|].
      rewrite IH. destruct (recorded !! signer) as [s|] eqn:Hrec.
      * by rewrite IH.
      * by rewrite lookup_insert_eq.
    + rewrite (lookup_insert_ne m) by done. rewrite <- IH.
      destruct added; [by rewrite lookup_insert_ne|].
      destruct (r !! i); [done|by rewrite lookup_insert_ne].
Qed.

(** ** One iteration of the builder's main loop *)

Lemma iterStep_skipped v Remove maxTxBytes maxBlockGas st memTx sigs :
  GetSignaturesV2 memTx = Some sigs ->
  passesSequenceCheck (selectedTxsSignersSeqs st) sigs = false ->
  iterStep v Remove maxTxBytes maxBlockGas st memTx = StepNext st.
Proof.
  unfold passesSequenceCheck, iterStep. intros -> Hc.
  destruct (checkSigners (selectedTxsSignersSeqs st) sigs ∅) as [b m].
  simpl in Hc. by subst b.
Qed.

Lemma iterStep_unverified v Remove maxTxBytes maxBlockGas st memTx sigs :
  GetSignaturesV2 memTx = Some sigs ->
  passesSequenceCheck (selectedTxsSignersSeqs st) sigs = true ->
  PrepareProposalVerifyTx v memTx = None ->
  iterStep v Remove maxTxBytes maxBlockGas st memTx
  = match Remove memTx with
    | RemoveErrOther => StepPanic
    | _ => StepNext st
    end.
Proof.
  unfold passesSequenceCheck, iterStep. intros -> Hc ->.
  destruct (checkSigners (selectedTxsSignersSeqs st) sigs ∅) as [b m].
  simpl in Hc. subst b. simpl. by destruct (Remove memTx).
Qed.

Lemma iterStep_verified v Remove maxTxBytes maxBlockGas st memTx
    sigs txSignersSeqs txBz :
  GetSignaturesV2 memTx = Some sigs ->
  checkSigners (selectedTxsSignersSeqs st) sigs ∅ = (true, txSignersSeqs) ->
  PrepareProposalVerifyTx v memTx = Some txBz ->
  iterStep v Remove maxTxBytes maxBlockGas st memTx
  = let ts' := selectUpdate maxTxBytes maxBlockGas (Some memTx) txBz
                 (selector st) in
    if reachedCapacity maxTxBytes maxBlockGas ts' then
      StepBreak {| selector := ts';
                   selectedTxsSignersSeqs := selectedTxsSignersSeqs st;
                   selectedTxsNums := selectedTxsNums st |}
    else
      StepNext {| selector := ts';
                  selectedTxsSignersSeqs :=
                    updateSeqs
                      (negb (Nat.eqb (length (selectedTxs ts'))
                               (selectedTxsNums st)))
                      txSignersSeqs (selectedTxsSignersSeqs st);
                  selectedTxsNums := length (selectedTxs ts') |}.
Proof.
  unfold iterStep, SelectTxForProposal. intros -> -> ->. reflexivity.
Qed.

(** The three ways an iteration can go. *)
Lemma iterStep_inv v Remove maxTxBytes maxBlockGas st memTx :
  iterStep v Remove maxTxBytes maxBlockGas st memTx = StepPanic
  \/ iterStep v Remove maxTxBytes maxBlockGas st memTx = StepNext st
  \/ exists sigs txSignersSeqs txBz,
       GetSignaturesV2 memTx = Some sigs
       /\ checkSigners (selectedTxsSignersSeqs st) sigs ∅
          = (true, txSignersSeqs)
       /\ PrepareProposalVerifyTx v memTx = Some txBz.
Proof.
  destruct (GetSignaturesV2 memTx) as [sigs|] eqn:Hs.
  2:{ left. unfold iterStep. by rewrite Hs. }
  destruct (checkSigners (selectedTxsSignersSeqs st) sigs ∅) as [b m] eqn:Hc.
  destruct b.
  2:{ right. left. eapply iterStep_skipped; [done|].
      unfold passesSequenceCheck. by rewrite Hc. }
  destruct (PrepareProposalVerifyTx v memTx) as [txBz|] eqn:Hv.
  - right. right. by exists sigs, m, txBz.
  - rewrite (iterStep_unverified _ _ _ _ _ _ sigs); [|done| |done].
    + destruct (Remove memTx); auto.
    + unfold passesSequenceCheck. by rewrite Hc.
Qed.

(** A property of the selector that every admission decision on verified
    bytes preserves holds when the main loop ends. *)
Lemma prepareLoop_selector_inv v Remove maxTxBytes maxBlockGas
    (P : defaultTxSelector -> Prop) :
  (forall ts memTx txBz,
     P ts -> PrepareProposalVerifyTx v memTx = Some txBz ->
     P (selectUpdate maxTxBytes maxBlockGas (Some memTx) txBz ts)) ->
  forall iterator st st',
    P (selector st) ->
    prepareLoop v Remove maxTxBytes maxBlockGas st iterator = Some st' ->
    P (selector st').
Proof.
  intros Hstep iterator.
  induction iterator as [|memTx rest IH]; intros st st' HP Hloop.
  - simpl in Hloop. by injection Hloop as <-.
  - cbn [prepareLoop] in Hloop.
    destruct (iterStep_inv v Remove maxTxBytes maxBlockGas st memTx)
      as [Hp|[Hn|(sigs & m & txBz & Hs & Hc & Hv)]].
    + by rewrite Hp in Hloop.
    + rewrite Hn in Hloop. by eapply IH.
    + rewrite (iterStep_verified _ _ _ _ _ _ _ _ _ Hs Hc Hv) in Hloop.
      cbn zeta in Hloop.
      specialize (Hstep _ _ _ HP Hv).
      destruct (reachedCapacity _ _ _).
      * by injection Hloop as <-.
      * eapply IH; [|done]. done.
Qed.

(** ** Builder and validator *)

(** The deferred [Clear] returns the handler to the state its constructor
    gives it. *)
Lemma PrepareProposalHandler_resets mp v ctx req :
  (PrepareProposalHandler (NewDefaultProposalHandler mp v) ctx req).2
  = NewDefaultProposalHandler mp v.
Proof.
  unfold PrepareProposalHandler, NewDefaultProposalHandler. simpl.
  destruct mp; [done|done|]. by destruct (prepareLoop _ _ _ _ _ _).
Qed.

Lemma prepareMaxBlockGas_process ctx :
  prepareMaxBlockGas ctx = uint64_of_int64 (processMaxBlockGas ctx).
Proof.
  unfold prepareMaxBlockGas, processMaxBlockGas.
  by destruct (ConsensusParamsBlock ctx).
Qed.

Lemma processMaxBlockGas_range ctx :
  wellTypedContext ctx -> int64_range (processMaxBlockGas ctx).
Proof.
  unfold wellTypedContext, processMaxBlockGas. intros H.
  destruct (ConsensusParamsBlock ctx) as [b|]; [by apply H|].
  unfold int64_range. lia.
Qed.

Lemma validatorFollows_cleared v maxBlockGas :
  validatorFollows v maxBlockGas NewDefaultTxSelector.
Proof.
  split; [reflexivity|]. intros rest. simpl. by destruct (0 <? maxBlockGas)%Z.
Qed.

Lemma validatorFollows_step v g maxTxBytes memTx txBz ts :
  int64_range g ->
  verifiersAgree v ->
  validatorFollows v g ts ->
  PrepareProposalVerifyTx v memTx = Some txBz ->
  validatorFollows v g
    (selectUpdate maxTxBytes (uint64_of_int64 g) (Some memTx) txBz ts).
Proof.
  intros Hr Hagree [Htot Hfol] Hv.
  destruct (selectUpdate_spec maxTxBytes (uint64_of_int64 g) (Some memTx)
              txBz ts) as [(Fb & Fg & ->)|[_ ->]]; [|done].
  destruct (Hagree _ _ Hv) as (tx & Hpv & Hgas).
  unfold int64_range in Hr.
  split.
  - cbn [admittedState totalTxGas].
    destruct (0 <? uint64_of_int64 g); [apply add64_lt|done].
  - intros rest. cbn [admittedState selectedTxs totalTxGas].
    rewrite <- app_assoc, Hfol. cbn [app processLoop]. rewrite Hpv.
    destruct (Z.ltb_spec 0 g) as [Hpos|Hnpos]; [|done].
    assert (Hmax : uint64_of_int64 g = Z.to_N g)
      by (apply uint64_of_int64_nonneg; lia).
    assert (Hposn : (0 <? uint64_of_int64 g) = true)
      by (apply N.ltb_lt; lia).
    rewrite Hposn.
    assert (Htot' : match GetGas tx with
                    | Some x => add64 (totalTxGas ts) x
                    | None => totalTxGas ts
                    end
                    = add64 (totalTxGas ts) (txGasLimitOf (Some memTx))).
    { rewrite <- Hgas. simpl.
      destruct (GetGas tx); [done|by rewrite add64_0_r]. }
    rewrite Htot'.
    destruct Fg as [Hz|Hle]; [lia|].
    destruct (N.ltb_spec (uint64_of_int64 g)
                (add64 (totalTxGas ts) (txGasLimitOf (Some memTx))));
      [lia|done].
Qed.

Lemma validatorFollows_accept v g ts :
  validatorFollows v g ts -> processLoop v g 0 (selectedTxs ts) = ACCEPT.
Proof.
  intros [_ H]. specialize (H []). by rewrite app_nil_r in H.
Qed.

Lemma agreeingVerifier_agrees : verifiersAgree agreeingVerifier.
Proof.
  intros memTx txBz Hv. simpl in Hv. case_decide as Hg; [|done].
  injection Hv as <-. eexists. split; [reflexivity|].
  simpl. by rewrite Hg.
Qed.

(** C3: every transaction list the builder returns is accepted by the
    validator of the same handler under the same context, when the two
    sides of the verifier agree on verdicts and gas; and with a nil or
    no-op mempool the validator accepts every request. *)
Theorem builder_validator_symmetry mp v ctx req :
  let h := NewDefaultProposalHandler mp v in
  (wellTypedContext ctx -> verifiersAgree v ->
   forall txs,
     (PrepareProposalHandler h ctx req).1 = PrepareOk txs ->
     ProcessProposalHandler h ctx {| ProposalTxs := txs |} = ACCEPT)
  /\ (isNilOrNoOp mp = true ->
      forall ctx' req', ProcessProposalHandler h ctx' req' = ACCEPT).
Proof.
  intros h. subst h. split.
  - intros Hwt Hagree txs Hprep.
    unfold PrepareProposalHandler, ProcessProposalHandler,
      NewDefaultProposalHandler in *. simpl in *.
    destruct mp as [| |Select Remove]; [done|done|].
    destruct (prepareLoop v Remove (uint64_of_int64 (MaxTxBytes req))
                (prepareMaxBlockGas ctx)
                {| selector := NewDefaultTxSelector;
                   selectedTxsSignersSeqs := ∅;
                   selectedTxsNums := 0 |}
                (Select ctx (Txs req))) as [st|] eqn:Hloop; [|done].
    simpl in Hprep. injection Hprep as <-.
    apply validatorFollows_accept.
    assert (Hstep : forall ts memTx txBz,
              validatorFollows v (processMaxBlockGas ctx) ts ->
              PrepareProposalVerifyTx v memTx = Some txBz ->
              validatorFollows v (processMaxBlockGas ctx)
                (selectUpdate (uint64_of_int64 (MaxTxBytes req))
                   (prepareMaxBlockGas ctx) (Some memTx) txBz ts)).
    { intros ts memTx txBz Hfol Hv. rewrite prepareMaxBlockGas_process.
      apply validatorFollows_step; [|done..].
      by apply processMaxBlockGas_range. }
    exact (prepareLoop_selector_inv v Remove _ _ _ Hstep _
             {| selector := NewDefaultTxSelector;
                selectedTxsSignersSeqs := ∅;
                selectedTxsNums := 0 |} st
             (validatorFollows_cleared _ _) Hloop).
  - intros Hmp ctx' req'. unfold ProcessProposalHandler. simpl.
    by destruct mp.
Qed.

Lemma builder_validator_symmetry_witness :
  ProcessProposalHandler
    (NewDefaultProposalHandler gapMempool agreeingVerifier)
    (contextWithMaxGas 10)
    {| ProposalTxs := [replicate 4 Byte.x00; replicate 4 Byte.x00] |}
  = ACCEPT.
Proof.
  apply (proj1 (builder_validator_symmetry gapMempool agreeingVerifier
                  (contextWithMaxGas 10) gapRequest)).
  - intros b [= <-]. unfold int64_range. simpl. lia.
  - apply agreeingVerifier_agrees.
  - vm_compute. reflexivity.
Defined.

(** ** The sequence law *)

(** What an iteration does with a transaction that passed the filter and
    the verifier. *)
Lemma iterStep_verified_cases v Remove maxTxBytes maxBlockGas st memTx
    sigs txSignersSeqs txBz :
  GetSignaturesV2 memTx = Some sigs ->
  checkSigners (selectedTxsSignersSeqs st) sigs ∅ = (true, txSignersSeqs) ->
  PrepareProposalVerifyTx v memTx = Some txBz ->
  exists st',
    (iterStep v Remove maxTxBytes maxBlockGas st memTx = StepBreak st'
     \/ (iterStep v Remove maxTxBytes maxBlockGas st memTx = StepNext st'
         /\ selectedTxsSignersSeqs st'
            = updateSeqs
                (negb (Nat.eqb (length (selectedTxs (selector st')))
                         (selectedTxsNums st)))
                txSignersSeqs (selectedTxsSignersSeqs st)
         /\ selectedTxsNums st' = length (selectedTxs (selector st'))))
    /\ ((selector st' = admittedState maxBlockGas (Some memTx) txBz
                          (selector st)
         /\ admittedBy v Remove maxTxBytes maxBlockGas st memTx = true)
        \/ (selector st' = selector st
            /\ admittedBy v Remove maxTxBytes maxBlockGas st memTx = false)).
Proof.
  intros Hs Hc Hv. unfold admittedBy.
  rewrite (iterStep_verified _ _ _ _ _ _ _ _ _ Hs Hc Hv). cbn zeta.
  assert (Hcase :
    (selectUpdate maxTxBytes maxBlockGas (Some memTx) txBz (selector st)
     = admittedState maxBlockGas (Some memTx) txBz (selector st)
     /\ negb (Nat.eqb
                (length (selectedTxs
                   (selectUpdate maxTxBytes maxBlockGas (Some memTx) txBz
                      (selector st))))
                (length (selectedTxs (selector st)))) = true)
    \/ (selectUpdate maxTxBytes maxBlockGas (Some memTx) txBz (selector st)
        = selector st
        /\ negb (Nat.eqb
                   (length (selectedTxs
                      (selectUpdate maxTxBytes maxBlockGas (Some memTx) txBz
                         (selector st))))
                   (length (selectedTxs (selector st)))) = false)).
  { destruct (selectUpdate_spec maxTxBytes maxBlockGas (Some memTx) txBz
                (selector st)) as [(_ & _ & ->)|[_ ->]].
    - left. split; [done|]. simpl. rewrite length_app. simpl.
      apply negb_true_iff, Nat.eqb_neq. lia.
    - right. split; [done|]. by rewrite Nat.eqb_refl. }
  destruct (reachedCapacity maxTxBytes maxBlockGas _);
    eexists; (split; [first [left; reflexivity|right; done]|exact Hcase]).
Qed.

Lemma admittedBy_unchanged v Remove maxTxBytes maxBlockGas st memTx :
  iterStep v Remove maxTxBytes maxBlockGas st memTx = StepNext st ->
  admittedBy v Remove maxTxBytes maxBlockGas st memTx = false.
Proof. unfold admittedBy. intros ->. by rewrite Nat.eqb_refl. Qed.



(** A sequence that passed the filter continues the recorded one. *)
Lemma passing_seq_continues recorded sigs m signer x p :
  checkSigners recorded sigs ∅ = (true, m) ->
  lastSeq signer sigs = Some x ->
  recorded !! signer = Some p ->
  x = add64 p 1.
Proof.
  intros Hc Hl Hrec.
  assert (Hpass : Forall (sigAcceptable recorded) sigs).
  { apply (checkSigners_pass_iff recorded sigs ∅). by rewrite Hc. }
  apply lastSeq_elem in Hl as (sg & Hin & Hsig & Hseq).
  eapply Forall_forall in Hpass; [|exact Hin].
  rewrite <- Hseq. apply Hpass. by rewrite Hsig.
Qed.







(** The selected list, when the loop ends, holds the verified bytes of the
    admitted transactions, in admission order. *)
Lemma prepareLoop_selected v Remove maxTxBytes maxBlockGas iterator :
  forall st st',
    prepareLoop v Remove maxTxBytes maxBlockGas st iterator = Some st' ->
    selectedTxs (selector st')
    = selectedTxs (selector st)
      ++ omap (PrepareProposalVerifyTx v)
           (admittedTxs v Remove maxTxBytes maxBlockGas st iterator)
    /\ Forall (fun tx => is_Some (PrepareProposalVerifyTx v tx))
         (admittedTxs v Remove maxTxBytes maxBlockGas st iterator).
Proof.
  induction iterator as [|memTx rest IH]; intros st st' Hloop.
  - simpl in *. injection Hloop as <-. by rewrite app_nil_r.
  - cbn [prepareLoop admittedTxs] in *.
    destruct (iterStep_inv v Remove maxTxBytes maxBlockGas st memTx)
      as [Hp|[Hn|(sigs & m & txBz & Hs & Hc & Hv)]].
    + by rewrite Hp in Hloop.
    + rewrite (admittedBy_unchanged _ _ _ _ _ _ Hn), Hn in *. simpl.
      by apply IH.
    + destruct (iterStep_verified_cases v Remove maxTxBytes maxBlockGas st
                  memTx sigs m txBz Hs Hc Hv)
        as (st1 & Hstep & [[Hsel ->]|[Hsel ->]]).
      * destruct Hstep as [Hb|(Hb & _)]; rewrite Hb in *.
        -- injection Hloop as <-. rewrite Hsel. simpl. rewrite Hv.
           split; [done|]. constructor; [by rewrite Hv|done].
        -- apply IH in Hloop as [-> Hall]. rewrite Hsel. simpl. rewrite Hv.
           rewrite <- app_assoc. split; [done|].
           constructor; [by rewrite Hv|done].
      * destruct Hstep as [Hb|(Hb & _)]; rewrite Hb in *.
        -- injection Hloop as <-. rewrite Hsel. simpl.
           by rewrite app_nil_r.
        -- apply IH in Hloop as [-> Hall]. rewrite Hsel. by simpl.
Qed.

Lemma checkSigners_violation recorded sigs sig s :
  sig ∈ sigs ->
  recorded !! Signer sig = Some s ->
  Sequence sig <> add64 s 1 ->
  passesSequenceCheck recorded sigs = false.
Proof.
  intros Hin Hrec Hne. unfold passesSequenceCheck.
  apply not_true_is_false. intros Hpass.
  apply checkSigners_pass_iff in Hpass.
  eapply Forall_forall in Hpass; [|exact Hin]. by apply Hne, Hpass.
Qed.





(** ** Scenarios *)

(** Budgets of 100 bytes and 1000 gas, three candidates of 40 bytes and 300
    gas: the first two are admitted, the third does not fit the byte
    budget. *)
Example scenario_byte_budget :
  (PrepareProposalHandler
     (NewDefaultProposalHandler
        (sampleMempool [sampleTx 40 300 1; sampleTx 40 300 2;
                        sampleTx 40 300 3])
        sampleVerifier)
     (contextWithMaxGas 1000) {| MaxTxBytes := 100; Txs := [] |}).1
  = PrepareOk [replicate 40 Byte.x00; replicate 40 Byte.x00].
Proof. vm_compute. reflexivity. Qed.

(** Signer ["A"] offers sequences 5, 6 and 8 (payloads of 1, 2 and 3
    bytes): the first two are admitted, the third is skipped. *)
Example scenario_sequence_gap :
  (PrepareProposalHandler
     (NewDefaultProposalHandler
        (sampleMempool [sampleTx 1 1 5; sampleTx 2 1 6; sampleTx 3 1 8])
        sampleVerifier)
     nilContext {| MaxTxBytes := 100; Txs := [] |}).1
  = PrepareOk [replicate 1 Byte.x00; replicate 2 Byte.x00].
Proof. vm_compute. reflexivity. Qed.

(** A candidate rejected for its size records the predecessor of its
    sequence, so the same sequence is admitted later and the next one after
    it. *)
Example scenario_budget_rejection :
  (PrepareProposalHandler
     (NewDefaultProposalHandler
        (sampleMempool [sampleTx 9 1 5; sampleTx 2 1 6; sampleTx 3 1 5;
                        sampleTx 1 1 6])
        sampleVerifier)
     nilContext {| MaxTxBytes := 8; Txs := [] |}).1
  = PrepareOk [replicate 3 Byte.x00; replicate 1 Byte.x00].
Proof. vm_compute. reflexivity. Qed.

(** A proposal whose second transaction fails verification is rejected. *)
Example scenario_second_fails :
  ProcessProposalHandler
    (NewDefaultProposalHandler (sampleMempool []) strictVerifier)
    nilContext {| ProposalTxs := [[Byte.x00]; []] |}
  = REJECT.
Proof. reflexivity. Qed.

(** With [MaxGas = -2] the builder leaves out a candidate that declares
    2^64 - 1 gas, which the validator of the same context accepts. *)
Example scenario_negative_max_gas :
  (PrepareProposalHandler
     (NewDefaultProposalHandler (sampleMempool [maxGasTx]) sampleVerifier)
     (contextWithMaxGas (-2)) {| MaxTxBytes := 100; Txs := [] |}).1
  = PrepareOk []
  /\ ProcessProposalHandler
       (NewDefaultProposalHandler (sampleMempool [maxGasTx])
          {| PrepareProposalVerifyTx := fun tx => Some (Payload tx);
             ProcessProposalVerifyTx := fun _ => Some maxGasTx |})
       (contextWithMaxGas (-2)) {| ProposalTxs := [[Byte.x00]] |}
     = ACCEPT.
Proof. split; vm_compute; reflexivity. Qed.

(** * Further properties *)

(** ** The selector only appends *)

Lemma selectCalls_appends maxTxBytes maxBlockGas calls :
  forall ts,
    selectedTxs (selectCalls maxTxBytes maxBlockGas calls ts)
    = selectedTxs ts ++ (admittedCalls maxTxBytes maxBlockGas calls ts).*2
    /\ admittedCalls maxTxBytes maxBlockGas calls ts `sublist_of` calls.
Proof.
  induction calls as [|[memTx txBz] rest IH]; intros ts.
  - simpl. by rewrite app_nil_r.
  - rewrite selectCalls_cons.
    cbn [admittedCalls SelectTxForProposal fst snd].
    destruct (IH (selectUpdate maxTxBytes maxBlockGas memTx txBz ts))
      as [-> Hsub].
    destruct (selectUpdate_spec maxTxBytes maxBlockGas memTx txBz ts)
      as [(_ & _ & Heq)|[_ Heq]]; rewrite Heq in *.
    + assert (Hgrow : Nat.eqb
                (length (selectedTxs (admittedState maxBlockGas memTx txBz ts)))
                (length (selectedTxs ts)) = false).
      { apply Nat.eqb_neq. cbn. rewrite length_app. simpl. lia. }
      rewrite Hgrow. cbn [app]. rewrite fmap_cons. cbn [snd admittedState
        selectedTxs]. rewrite <- app_assoc. split; [done|].
      by apply sublist_skip.
    + rewrite Nat.eqb_refl. cbn [app]. split; [done|]. by apply sublist_cons.
Qed.

(** X1: over any sequence of calls under fixed budgets, from any selector
    state, the selected list only grows at its end: what was selected stays
    in place as a prefix, and what is added is a sub-list of the candidates
    offered, in the order of the calls. *)
Theorem selector_only_appends maxTxBytes maxBlockGas calls ts :
  exists added,
    selectedTxs (selectCalls maxTxBytes maxBlockGas calls ts)
    = selectedTxs ts ++ added
    /\ added `sublist_of` calls.*2
    /\ selectedTxs ts
       `prefix_of` selectedTxs (selectCalls maxTxBytes maxBlockGas calls ts)
    /\ (length (selectedTxs (selectCalls maxTxBytes maxBlockGas calls ts))
        <= length (selectedTxs ts) + length calls)%nat.
Proof.
  destruct (selectCalls_appends maxTxBytes maxBlockGas calls ts) as [Heq Hsub].
  exists (admittedCalls maxTxBytes maxBlockGas calls ts).*2.
  assert (Hsub2 : (admittedCalls maxTxBytes maxBlockGas calls ts).*2
                  `sublist_of` calls.*2) by (by apply fmap_sublist).
  split; [done|]. split; [done|]. split.
  - rewrite Heq. by apply prefix_app_r.
  - rewrite Heq, length_app. apply sublist_length in Hsub2.
    rewrite length_fmap in Hsub2. rewrite length_fmap in *. lia.
Qed.

(** ** The signer-sequence filter *)

(** X2: the sequence filter lets a signature list through if and only if
    every signature whose signer is recorded carries the recorded sequence
    plus one; signatures of unrecorded signers are never tested, so with
    nothing recorded every list passes; and the map a passing list yields
    gives each signer the last sequence listed for it. *)
Theorem sequence_filter_characterised recorded sigs :
  (passesSequenceCheck recorded sigs = true
   <-> forall sig s,
         sig ∈ sigs -> recorded !! Signer sig = Some s ->
         Sequence sig = add64 s 1)
  /\ passesSequenceCheck ∅ sigs = true
  /\ (passesSequenceCheck recorded sigs = true ->
      forall signer,
        (checkSigners recorded sigs ∅).2 !! signer = lastSeq signer sigs).
Proof.
  split; [|split].
  - unfold passesSequenceCheck. rewrite checkSigners_pass_iff, Forall_forall.
    unfold sigAcceptable. split; intros H; [intros sg s Hin|intros sg Hin s];
      by apply H.
  - unfold passesSequenceCheck. apply checkSigners_pass_iff, Forall_forall.
    intros sg _ s Hs. by rewrite lookup_empty in Hs.
  - unfold passesSequenceCheck. intros Hp signer.
    destruct (checkSigners recorded sigs ∅) as [b m] eqn:Hc.
    simpl in Hp. subst b. simpl. by eapply checkSigners_lastSeq.
Qed.

(** ** The fallback path returns everything that fits *)

Lemma uint64_of_int64_lt x : uint64_of_int64 x < two64.
Proof.
  unfold uint64_of_int64, two64.
  pose proof (Z.mod_pos_bound x 18446744073709551616 eq_refl). lia.
Qed.

Lemma greedyFill_all budget txs :
  totalLen txs < budget -> greedyFill budget txs = txs.
Proof.
  revert budget. induction txs as [|tx rest IH]; intros budget Hlt; [done|].
  rewrite totalLen_cons in Hlt. cbn [greedyFill].
  destruct (N.leb_spec (N.of_nat (length tx)) budget) as [_|?]; [|lia].
  destruct (N.eqb_spec (budget - N.of_nat (length tx)) 0) as [?|_]; [lia|].
  f_equal. apply IH. lia.
Qed.

Lemma noop_returns_all mp v ctx req :
  isNilOrNoOp mp = true ->
  totalLen (Txs req) < uint64_of_int64 (MaxTxBytes req) ->
  (PrepareProposalHandler (NewDefaultProposalHandler mp v) ctx req).1
  = PrepareOk (Txs req).
Proof.
  intros Hmp Hlt.
  pose proof (uint64_of_int64_lt (MaxTxBytes req)) as Hmax.
  assert (Hloop : SelectedTxs
            (noOpLoop (uint64_of_int64 (MaxTxBytes req))
               (prepareMaxBlockGas ctx) (Txs req) NewDefaultTxSelector)
          = Txs req).
  { unfold SelectedTxs. rewrite noOpLoop_greedyFill; simpl.
    - rewrite N.sub_0_r. by apply greedyFill_all.
    - done.
    - apply N.le_0_l.
    - lia. }
  unfold PrepareProposalHandler, NewDefaultProposalHandler. simpl.
  destruct mp; simpl in *; try discriminate; by rewrite Hloop.
Qed.

(** X3: with a nil or no-op mempool, when the candidates' total length is
    below the byte limit, the default handler returns the request's
    transactions unchanged, empty ones included: it agrees with
    [NoOpPrepareProposal], whatever the gas limit of the context. *)
Theorem noop_mempool_agrees_with_NoOpPrepareProposal mp v ctx req :
  isNilOrNoOp mp = true ->
  totalLen (Txs req) < uint64_of_int64 (MaxTxBytes req) ->
  (PrepareProposalHandler (NewDefaultProposalHandler mp v) ctx req).1
  = PrepareOk (NoOpPrepareProposal req).
Proof. intros Hmp Hlt. by apply noop_returns_all. Qed.

Lemma noop_mempool_agrees_with_NoOpPrepareProposal_witness :
  (PrepareProposalHandler
     (NewDefaultProposalHandler NilMempool sampleVerifier)
     (contextWithMaxGas 1) roomyRequest).1
  = PrepareOk (NoOpPrepareProposal roomyRequest).
Proof.
  apply (noop_mempool_agrees_with_NoOpPrepareProposal
           NilMempool sampleVerifier (contextWithMaxGas 1) roomyRequest).
  - reflexivity.
  - vm_compute. reflexivity.
Defined.

(** X4: a negative [MaxTxBytes] is converted by [uint64(req.MaxTxBytes)]
    to a limit of at least 2^63, so with a nil or no-op mempool every
    candidate is returned (for candidates of fewer than 2^63 bytes in
    all). *)
Theorem negative_MaxTxBytes_is_no_limit mp v ctx req :
  isNilOrNoOp mp = true ->
  int64_range (MaxTxBytes req) ->
  (MaxTxBytes req < 0)%Z ->
  totalLen (Txs req) < 9223372036854775808 ->
  9223372036854775808 <= uint64_of_int64 (MaxTxBytes req)
  /\ (PrepareProposalHandler (NewDefaultProposalHandler mp v) ctx req).1
     = PrepareOk (Txs req).
Proof.
  intros Hmp Hr Hneg Hlen. unfold int64_range in Hr.
  assert (Hbig : 9223372036854775808 <= uint64_of_int64 (MaxTxBytes req)).
  { rewrite uint64_of_int64_neg by lia. lia. }
  split; [done|]. apply noop_returns_all; [done|lia].
Qed.

Lemma negative_MaxTxBytes_is_no_limit_witness :
  9223372036854775808 <= uint64_of_int64 (MaxTxBytes negativeLimitRequest)
  /\ (PrepareProposalHandler
        (NewDefaultProposalHandler NoOpMempool sampleVerifier)
        nilContext negativeLimitRequest).1
     = PrepareOk (Txs negativeLimitRequest).
Proof.
  apply (negative_MaxTxBytes_is_no_limit
           NoOpMempool sampleVerifier nilContext negativeLimitRequest).
  - reflexivity.
  - unfold int64_range. simpl. lia.
  - simpl. lia.
  - vm_compute. reflexivity.
Defined.

(** ** The validator on prefixes and on exact gas *)

(** X5: the proposals [ProcessProposalHandler] accepts are closed under
    prefixes: if a list followed by further transactions is accepted, the
    list alone is accepted; so appending transactions never turns a
    rejected proposal into an accepted one. *)
Theorem accepted_proposals_prefix_closed h ctx txs more :
  ProcessProposalHandler h ctx {| ProposalTxs := txs ++ more |} = ACCEPT ->
  ProcessProposalHandler h ctx {| ProposalTxs := txs |} = ACCEPT.
Proof.
  unfold ProcessProposalHandler. simpl.
  destruct (mempool h); [done|done|].
  rewrite !processLoop_accept_spec. intros [Hall Hgas]. split.
  - by apply Forall_app in Hall as [? _].
  - intros Hpos k. destruct (take_bounded txs k) as (k' & Hk' & ->).
    rewrite <- (take_app_le txs more k') by done. by apply Hgas.
Qed.

Lemma accepted_proposals_prefix_closed_witness :
  ProcessProposalHandler
    (NewDefaultProposalHandler (sampleMempool []) strictVerifier)
    (contextWithMaxGas 5) {| ProposalTxs := [[Byte.x00]] |}
  = ACCEPT.
Proof.
  apply (accepted_proposals_prefix_closed
           (NewDefaultProposalHandler (sampleMempool []) strictVerifier)
           (contextWithMaxGas 5) [[Byte.x00]] [[Byte.x01]]).
  reflexivity.
Defined.

Lemma totalDeclaredGas_cons v tx rest :
  totalDeclaredGas v (tx :: rest)
  = declaredGas v tx + totalDeclaredGas v rest.
Proof. reflexivity. Qed.

Lemma runningGasFrom_exact v txs :
  forall total,
    total + totalDeclaredGas v txs < two64 ->
    runningGasFrom v total txs = total + totalDeclaredGas v txs.
Proof.
  induction txs as [|tx rest IH]; intros total Hlt.
  - cbn. lia.
  - rewrite totalDeclaredGas_cons in *. unfold runningGasFrom in *.
    cbn [foldl]. rewrite add64_small by lia. rewrite IH; lia.
Qed.

Lemma totalDeclaredGas_take v txs k :
  totalDeclaredGas v (take k txs) <= totalDeclaredGas v txs.
Proof.
  revert k. induction txs as [|tx rest IH]; intros k.
  - by rewrite take_nil.
  - destruct k as [|k]; [cbn; lia|].
    rewrite firstn_cons, !totalDeclaredGas_cons. specialize (IH k). lia.
Qed.

(** X6: with a real mempool and a positive [Block.MaxGas], when the gas
    declared by the received transactions sums to less than 2^64 (no
    wrap-around of the counter), the proposal is accepted if and only if
    every transaction verifies and the total declared gas is at most
    [MaxGas]. *)
Theorem process_accepts_iff_total_gas_within_limit
    Select Remove v sel ctx req :
  (0 < processMaxBlockGas ctx)%Z ->
  int64_range (processMaxBlockGas ctx) ->
  totalDeclaredGas v (ProposalTxs req) < two64 ->
  ProcessProposalHandler
    {| mempool := RealMempool Select Remove;
       txVerifier := v; txSelector := sel |} ctx req = ACCEPT
  <-> Forall (verifies v) (ProposalTxs req)
      /\ totalDeclaredGas v (ProposalTxs req)
         <= Z.to_N (processMaxBlockGas ctx).
Proof.
  intros Hpos Hr Hlt. unfold ProcessProposalHandler. simpl.
  unfold int64_range in Hr.
  rewrite processLoop_accept_spec, uint64_of_int64_nonneg by lia.
  assert (Hexact : forall k,
            runningGas v (take k (ProposalTxs req))
            = totalDeclaredGas v (take k (ProposalTxs req))).
  { intros k. unfold runningGas. rewrite runningGasFrom_exact; [lia|].
    pose proof (totalDeclaredGas_take v (ProposalTxs req) k). lia. }
  split; intros [Hall Hgas]; (split; [done|]).
  - specialize (Hgas Hpos (length (ProposalTxs req))).
    by rewrite Hexact, firstn_all in Hgas.
  - intros _ k. rewrite Hexact.
    pose proof (totalDeclaredGas_take v (ProposalTxs req) k). lia.
Qed.

Lemma process_accepts_iff_total_gas_within_limit_witness :
  ProcessProposalHandler
    {| mempool := sampleMempool []; txVerifier := sampleVerifier;
       txSelector := NewDefaultTxSelector |}
    (contextWithMaxGas 5) {| ProposalTxs := [[Byte.x00]; [Byte.x01]] |}
  = ACCEPT
  <-> Forall (verifies sampleVerifier) [[Byte.x00]; [Byte.x01]]
      /\ totalDeclaredGas sampleVerifier [[Byte.x00]; [Byte.x01]]
         <= Z.to_N 5.
Proof.
  apply (process_accepts_iff_total_gas_within_limit
           (fun _ _ => []) (fun _ => RemoveOk) sampleVerifier
           NewDefaultTxSelector (contextWithMaxGas 5)
           {| ProposalTxs := [[Byte.x00]; [Byte.x01]] |}).
  - reflexivity.
  - vm_compute. split; [discriminate|reflexivity].
  - vm_compute. reflexivity.
Defined.

(** ** The builder: state, panics and what the response is made of *)





Lemma admittedTxs_sublist v Remove maxTxBytes maxBlockGas iterator :
  forall st,
    admittedTxs v Remove maxTxBytes maxBlockGas st iterator
    `sublist_of` iterator.
Proof.
  induction iterator as [|memTx rest IH]; intros st; [done|].
  cbn [admittedTxs].
  destruct (iterStep v Remove maxTxBytes maxBlockGas st memTx) as [|st'|st'].
  - apply sublist_nil_l.
  - destruct (admittedBy _ _ _ _ _ _); simpl.
    + apply sublist_skip, IH.
    + apply sublist_cons, IH.
  - destruct (admittedBy _ _ _ _ _ _).
    + apply sublist_skip, sublist_nil_l.
    + apply sublist_nil_l.
Qed.

Lemma omap_Forall2 {A B} (f : A -> option B) (l : list A) :
  Forall (fun x => is_Some (f x)) l ->
  Forall2 (fun x y => f x = Some y) l (omap f l).
Proof.
  induction 1 as [|x l [y Hy] _ IH]; simpl; [constructor|].
  rewrite Hy. by constructor.
Qed.

Lemma realHandler_response Select Remove v ctx req txs :
  (PrepareProposalHandler (realHandler Select Remove v) ctx req).1
  = PrepareOk txs ->
  exists st,
    prepareLoop v Remove (uint64_of_int64 (MaxTxBytes req))
      (prepareMaxBlockGas ctx) initialLoopState (Select ctx (Txs req))
    = Some st
    /\ txs = selectedTxs (selector st).
Proof.
  unfold PrepareProposalHandler, realHandler, NewDefaultProposalHandler.
  simpl. fold initialLoopState.
  destruct (prepareLoop _ _ _ _ _ _) as [st|]; [|done].
  simpl. intros [= <-]. by exists st.
Qed.

(** X9: with a real mempool, the response is made of the verifier's bytes
    for a sub-list of the iterator's transactions, in the iterator's order:
    every entry is the verified encoding of a distinct position of the
    iterator, nothing is reordered or invented, and the response is no
    longer than the iterator. *)
Theorem response_is_verified_subsequence Select Remove v ctx req txs :
  (PrepareProposalHandler (realHandler Select Remove v) ctx req).1
  = PrepareOk txs ->
  exists admitted,
    admitted `sublist_of` Select ctx (Txs req)
    /\ Forall2 (fun tx txBz => PrepareProposalVerifyTx v tx = Some txBz)
         admitted txs
    /\ (length txs <= length (Select ctx (Txs req)))%nat.
Proof.
  intros Hprep.
  apply realHandler_response in Hprep as (st & Hloop & ->).
  apply prepareLoop_selected in Hloop as [Hsel Hall].
  simpl in Hsel.
  pose proof (admittedTxs_sublist v Remove (uint64_of_int64 (MaxTxBytes req))
                (prepareMaxBlockGas ctx) (Select ctx (Txs req))
                initialLoopState) as Hsub.
  eexists. split; [exact Hsub|]. rewrite Hsel. split.
  - by apply omap_Forall2.
  - apply sublist_length in Hsub.
    pose proof (omap_Forall2 _ _ Hall) as HF.
    apply Forall2_length in HF. lia.
Qed.

Lemma response_is_verified_subsequence_witness :
  exists admitted,
    admitted `sublist_of` [sampleTx 4 4 5; sampleTx 4 4 6; sampleTx 4 4 8]
    /\ Forall2 (fun tx txBz =>
                  PrepareProposalVerifyTx sampleVerifier tx = Some txBz)
         admitted [replicate 4 Byte.x00; replicate 4 Byte.x00]
    /\ (2 <= 3)%nat.
Proof.
  apply (response_is_verified_subsequence
           (fun _ _ => [sampleTx 4 4 5; sampleTx 4 4 6; sampleTx 4 4 8])
           (fun _ => RemoveOk) sampleVerifier nilContext gapRequest
           [replicate 4 Byte.x00; replicate 4 Byte.x00]).
  vm_compute. reflexivity.
Defined.

(** X10: a transaction of the iterator that gives its signatures, fails
    the verifier and whose [Remove] does not return an unexpected error has
    no effect on the build: the outcome is the one of the same iterator
    without it. *)
Theorem unverifiable_tx_has_no_effect
    Select Select' Remove v ctx req before tx after :
  is_Some (GetSignaturesV2 tx) ->
  PrepareProposalVerifyTx v tx = None ->
  Remove tx <> RemoveErrOther ->
  Select ctx (Txs req) = before ++ tx :: after ->
  Select' ctx (Txs req) = before ++ after ->
  (PrepareProposalHandler (realHandler Select Remove v) ctx req).1
  = (PrepareProposalHandler (realHandler Select' Remove v) ctx req).1.
Proof.
  intros [sigs Hs] Hv Hrm Hsel Hsel'.
  unfold PrepareProposalHandler, realHandler, NewDefaultProposalHandler.
  cbn [mempool txVerifier txSelector]. rewrite Hsel, Hsel'.
  clear Hsel Hsel'.
  assert (Hskip : forall st,
            iterStep v Remove (uint64_of_int64 (MaxTxBytes req))
              (prepareMaxBlockGas ctx) st tx = StepNext st).
  { intros st.
    destruct (passesSequenceCheck (selectedTxsSignersSeqs st) sigs) eqn:Hp.
    - rewrite (iterStep_unverified _ _ _ _ _ _ sigs) by done.
      by destruct (Remove tx).
    - by eapply iterStep_skipped. }
  assert (Hloop : forall st,
            prepareLoop v Remove (uint64_of_int64 (MaxTxBytes req))
              (prepareMaxBlockGas ctx) st (before ++ tx :: after)
            = prepareLoop v Remove (uint64_of_int64 (MaxTxBytes req))
                (prepareMaxBlockGas ctx) st (before ++ after)).
  { induction before as [|x before IH]; intros st.
    - simpl. by rewrite Hskip.
    - simpl. destruct (iterStep _ _ _ _ st x); [done| |done]. apply IH. }
  rewrite Hloop. by destruct (prepareLoop _ _ _ _ _ _).
Qed.

Lemma unverifiable_tx_has_no_effect_witness :
  (PrepareProposalHandler
     (realHandler
        (fun _ _ => [sampleTx 4 4 5] ++ sampleTx 0 1 9 :: [sampleTx 3 4 6])
        (fun _ => RemoveErrTxNotFound) payloadVerifier)
     nilContext gapRequest).1
  = (PrepareProposalHandler
       (realHandler (fun _ _ => [sampleTx 4 4 5] ++ [sampleTx 3 4 6])
          (fun _ => RemoveErrTxNotFound) payloadVerifier)
       nilContext gapRequest).1.
Proof.
  apply (unverifiable_tx_has_no_effect
           (fun _ _ => [sampleTx 4 4 5] ++ sampleTx 0 1 9 :: [sampleTx 3 4 6])
           (fun _ _ => [sampleTx 4 4 5] ++ [sampleTx 3 4 6])
           (fun _ => RemoveErrTxNotFound) payloadVerifier nilContext
           gapRequest [sampleTx 4 4 5] (sampleTx 0 1 9) [sampleTx 3 4 6]).
  - by eexists.
  - reflexivity.
  - discriminate.
  - reflexivity.
  - reflexivity.
Defined.

(** ** The budgets at the level of a build, in exact arithmetic *)

Lemma totalLen_snoc l tx :
  totalLen (l ++ [tx]) = totalLen l + N.of_nat (length tx).
Proof.
  induction l as [|x l IH]; [cbn; lia|].
  rewrite <- app_comm_cons, !totalLen_cons, IH. lia.
Qed.

(** For a byte budget below 2^63 and verifier outputs shorter than 2^63
    bytes, the selector's byte total is the exact total length of what it
    selected. *)
Lemma prepareLoop_bytes_exact v Remove maxTxBytes maxBlockGas iterator st :
  maxTxBytes < 9223372036854775808 ->
  (forall tx txBz,
     PrepareProposalVerifyTx v tx = Some txBz ->
     N.of_nat (length txBz) < 9223372036854775808) ->
  prepareLoop v Remove maxTxBytes maxBlockGas initialLoopState iterator
  = Some st ->
  totalTxBytes (selector st) = totalLen (selectedTxs (selector st))
  /\ totalTxBytes (selector st) <= maxTxBytes.
Proof.
  intros Hmax Hlen Hloop.
  set (P := fun ts : defaultTxSelector =>
              totalTxBytes ts = totalLen (selectedTxs ts)
              /\ totalTxBytes ts <= maxTxBytes).
  assert (Hstep : forall ts memTx txBz,
            P ts -> PrepareProposalVerifyTx v memTx = Some txBz ->
            P (selectUpdate maxTxBytes maxBlockGas (Some memTx) txBz ts)).
  { intros ts memTx txBz [Heq Hle] Hv. specialize (Hlen _ _ Hv).
    destruct (selectUpdate_spec maxTxBytes maxBlockGas (Some memTx) txBz ts)
      as [(Fb & _ & ->)|[_ ->]]; [|done].
    unfold fitsBytes in Fb. unfold P. cbn [admittedState totalTxBytes
      selectedTxs]. split; [|done].
    rewrite totalLen_snoc, <- Heq.
    rewrite txSizeOf_small by (unfold two64; lia).
    apply add64_small. unfold two64. lia. }
  refine (prepareLoop_selector_inv v Remove _ _ P Hstep _
            initialLoopState st _ Hloop).
  split; [reflexivity|]. simpl. lia.
Qed.

(** X11: with a real mempool and a byte limit [MaxTxBytes >= 0], the byte
    strings of the response have a total length of at most [MaxTxBytes]
    (exact sum, for verifier outputs shorter than 2^63 bytes, as every Go
    slice is). *)
Theorem real_response_within_byte_limit Select Remove v ctx req txs :
  (0 <= MaxTxBytes req < 9223372036854775808)%Z ->
  (forall tx txBz,
     PrepareProposalVerifyTx v tx = Some txBz ->
     N.of_nat (length txBz) < 9223372036854775808) ->
  (PrepareProposalHandler (realHandler Select Remove v) ctx req).1
  = PrepareOk txs ->
  totalLen txs <= Z.to_N (MaxTxBytes req).
Proof.
  intros Hmax Hlen Hprep.
  apply realHandler_response in Hprep as (st & Hloop & ->).
  rewrite uint64_of_int64_nonneg in Hloop by lia.
  apply prepareLoop_bytes_exact in Hloop as [<- Hle]; [done|lia|done].
Qed.

Lemma boundedVerifier_short tx txBz :
  PrepareProposalVerifyTx boundedVerifier tx = Some txBz ->
  N.of_nat (length txBz) < 9223372036854775808.
Proof.
  simpl. destruct (Nat.leb_spec (length (Payload tx)) 1000) as [Hle|]; [|done].
  intros [= <-]. lia.
Qed.

Lemma real_response_within_byte_limit_witness :
  totalLen [replicate 4 Byte.x00; replicate 4 Byte.x00] <= Z.to_N 9.
Proof.
  apply (real_response_within_byte_limit
           (fun _ _ => [sampleTx 4 4 5; sampleTx 4 4 6; sampleTx 4 4 7])
           (fun _ => RemoveOk) boundedVerifier nilContext
           {| MaxTxBytes := 9; Txs := [] |}
           [replicate 4 Byte.x00; replicate 4 Byte.x00]).
  - simpl. lia.
  - apply boundedVerifier_short.
  - vm_compute. reflexivity.
Defined.

Lemma iterStep_verified_fits v Remove maxTxBytes maxBlockGas st memTx
    sigs txSignersSeqs txBz :
  GetSignaturesV2 memTx = Some sigs ->
  checkSigners (selectedTxsSignersSeqs st) sigs ∅ = (true, txSignersSeqs) ->
  PrepareProposalVerifyTx v memTx = Some txBz ->
  exists st',
    (iterStep v Remove maxTxBytes maxBlockGas st memTx = StepBreak st'
     \/ iterStep v Remove maxTxBytes maxBlockGas st memTx = StepNext st')
    /\ ((fitsBytes maxTxBytes txBz (selector st)
         /\ fitsGas maxBlockGas (Some memTx) (selector st)
         /\ selector st' = admittedState maxBlockGas (Some memTx) txBz
                             (selector st)
         /\ admittedBy v Remove maxTxBytes maxBlockGas st memTx = true)
        \/ (selector st' = selector st
            /\ admittedBy v Remove maxTxBytes maxBlockGas st memTx = false)).
Proof.
  intros Hs Hc Hv. unfold admittedBy.
  rewrite (iterStep_verified _ _ _ _ _ _ _ _ _ Hs Hc Hv). cbn zeta.
  destruct (selectUpdate_spec maxTxBytes maxBlockGas (Some memTx) txBz
              (selector st)) as [(Fb & Fg & Heq)|[_ Heq]]; rewrite Heq.
  - assert (Hgrow : negb (Nat.eqb
                (length (selectedTxs
                   (admittedState maxBlockGas (Some memTx) txBz (selector st))))
                (length (selectedTxs (selector st)))) = true).
    { simpl. rewrite length_app. simpl.
      apply negb_true_iff, Nat.eqb_neq. lia. }
    destruct (reachedCapacity maxTxBytes maxBlockGas _);
      eexists; (split; [first [left; reflexivity|right; reflexivity]|]);
      left; cbn [selector]; auto.
  - destruct (reachedCapacity maxTxBytes maxBlockGas _);
      eexists; (split; [first [left; reflexivity|right; reflexivity]|]);
      right; cbn [selector]; rewrite Nat.eqb_refl; auto.
Qed.

(** Under a positive gas budget below 2^63 and transactions that declare
    less than 2^63 gas, the selector's gas total is the exact sum of the gas
    of the admitted transactions. *)
Lemma prepareLoop_gas_exact v Remove maxTxBytes maxBlockGas iterator :
  0 < maxBlockGas -> maxBlockGas < 9223372036854775808 ->
  (forall tx, tx ∈ iterator ->
     txGasLimitOf (Some tx) < 9223372036854775808) ->
  forall st st',
    totalTxGas (selector st) <= maxBlockGas ->
    prepareLoop v Remove maxTxBytes maxBlockGas st iterator = Some st' ->
    totalTxGas (selector st')
    = totalTxGas (selector st)
      + totalGas (Some <$> admittedTxs v Remove maxTxBytes maxBlockGas st
                             iterator)
    /\ totalTxGas (selector st') <= maxBlockGas.
Proof.
  intros Hpos Hmax. induction iterator as [|memTx rest IH];
    intros Hgas st st' Hle Hloop.
  - simpl in *. injection Hloop as <-. cbn. lia.
  - cbn [prepareLoop admittedTxs] in *.
    assert (Hrest : forall tx, tx ∈ rest ->
              txGasLimitOf (Some tx) < 9223372036854775808)
      by (intros tx Hin; apply Hgas; by right).
    destruct (iterStep_inv v Remove maxTxBytes maxBlockGas st memTx)
      as [Hp|[Hn|(sigs & m & txBz & Hs & Hc & Hv)]].
    + by rewrite Hp in Hloop.
    + rewrite (admittedBy_unchanged _ _ _ _ _ _ Hn), Hn in *. simpl.
      by apply IH.
    + destruct (iterStep_verified_fits v Remove maxTxBytes maxBlockGas st
                  memTx sigs m txBz Hs Hc Hv)
        as (st1 & Hstep & [(_ & Fg & Hsel & ->)|[Hsel ->]]).
      * assert (Hg : txGasLimitOf (Some memTx) < 9223372036854775808)
          by (apply Hgas; by left).
        assert (Hone : totalTxGas (selector st1)
                       = totalTxGas (selector st)
                         + txGasLimitOf (Some memTx)
                       /\ totalTxGas (selector st1) <= maxBlockGas).
        { rewrite Hsel. cbn [admittedState totalTxGas].
          apply N.ltb_lt in Hpos as Hpos'. rewrite Hpos'.
          unfold fitsGas in Fg.
          rewrite add64_small in * by (unfold two64; lia).
          destruct Fg; lia. }
        destruct Hone as [Hone Hle1].
        destruct Hstep as [Hb|Hb]; rewrite Hb in *.
        -- injection Hloop as <-.
           change (totalGas (Some <$> [memTx]))
             with (txGasLimitOf (Some memTx) + 0). lia.
        -- destruct (IH Hrest _ _ Hle1 Hloop) as [-> Hle2].
           change (Some <$> [memTx] ++ admittedTxs v Remove maxTxBytes
                                maxBlockGas st1 rest)
             with (Some memTx
                   :: (Some <$> admittedTxs v Remove maxTxBytes maxBlockGas
                                  st1 rest)).
           rewrite totalGas_cons. lia.
      * destruct Hstep as [Hb|Hb]; rewrite Hb in *.
        -- injection Hloop as <-. rewrite Hsel. cbn. lia.
        -- rewrite <- Hsel in Hle.
           destruct (IH Hrest _ _ Hle Hloop) as [-> Hle2].
           rewrite Hsel in Hle2 |- *. simpl. lia.
Qed.

(** X12: with a real mempool and a positive [Block.MaxGas], the
    transactions whose verified bytes make up the response declare at most
    [MaxGas] gas in total (exact sum, for transactions that each declare
    less than 2^63 gas). *)
Theorem real_response_within_gas_limit Select Remove v ctx req txs :
  (0 < processMaxBlockGas ctx)%Z ->
  int64_range (processMaxBlockGas ctx) ->
  (forall tx, tx ∈ Select ctx (Txs req) ->
     txGasLimitOf (Some tx) < 9223372036854775808) ->
  (PrepareProposalHandler (realHandler Select Remove v) ctx req).1
  = PrepareOk txs ->
  exists admitted,
    admitted `sublist_of` Select ctx (Txs req)
    /\ Forall2 (fun tx txBz => PrepareProposalVerifyTx v tx = Some txBz)
         admitted txs
    /\ totalGas (Some <$> admitted) <= Z.to_N (processMaxBlockGas ctx).
Proof.
  intros Hpos Hr Hgas Hprep. unfold int64_range in Hr.
  apply realHandler_response in Hprep as (st & Hloop & ->).
  rewrite prepareMaxBlockGas_process in Hloop.
  rewrite (uint64_of_int64_nonneg (processMaxBlockGas ctx)) in Hloop by lia.
  pose proof (prepareLoop_selected _ _ _ _ _ _ _ Hloop) as [Hsel Hall].
  simpl in Hsel.
  destruct (prepareLoop_gas_exact v Remove
              (uint64_of_int64 (MaxTxBytes req))
              (Z.to_N (processMaxBlockGas ctx)) (Select ctx (Txs req)))
    with (st := initialLoopState) (st' := st) as [Hsum Hle];
    [lia|lia|done|simpl; lia|done|].
  cbn [initialLoopState selector totalTxGas NewDefaultTxSelector] in Hsum.
  exists (admittedTxs v Remove (uint64_of_int64 (MaxTxBytes req))
            (Z.to_N (processMaxBlockGas ctx)) initialLoopState
            (Select ctx (Txs req))).
  split; [apply admittedTxs_sublist|]. split.
  - rewrite Hsel. by apply omap_Forall2.
  - lia.
Qed.

Lemma real_response_within_gas_limit_witness :
  exists admitted,
    admitted `sublist_of` [sampleTx 4 4 5; sampleTx 4 4 6; sampleTx 4 4 7]
    /\ Forall2 (fun tx txBz =>
                  PrepareProposalVerifyTx sampleVerifier tx = Some txBz)
         admitted [replicate 4 Byte.x00; replicate 4 Byte.x00]
    /\ totalGas (Some <$> admitted) <= Z.to_N 10.
Proof.
  apply (real_response_within_gas_limit
           (fun _ _ => [sampleTx 4 4 5; sampleTx 4 4 6; sampleTx 4 4 7])
           (fun _ => RemoveOk) sampleVerifier (contextWithMaxGas 10)
           gapRequest [replicate 4 Byte.x00; replicate 4 Byte.x00]).
  - reflexivity.
  - vm_compute. split; [discriminate|reflexivity].
  - intros tx Hin. simpl in Hin.
    repeat (apply elem_of_cons in Hin as [->|Hin]; [reflexivity|]).
    by apply elem_of_nil in Hin.
  - vm_compute. reflexivity.
Defined.

(** ** After a budget rejection *)

Lemma add64_sub64_1 seq : seq < two64 -> add64 (sub64 seq 1) 1 = seq.
Proof.
  intros H. unfold sub64, add64, two64 in *.
  rewrite (N.mod_small seq) by done.
  change (1 mod 18446744073709551616) with 1.
  destruct (decide (seq = 0)) as [->|Hne]; [done|].
  replace (seq + (18446744073709551616 - 1))
    with (seq - 1 + 1 * 18446744073709551616) by lia.
  rewrite N.Div0.mod_add, (N.mod_small (seq - 1)) by lia.
  rewrite N.mod_small by lia. lia.
Qed.

Lemma budget_rejection_lookup v Remove maxTxBytes maxBlockGas st memTx
    sigs m txBz :
  selectedTxsNums st = length (selectedTxs (selector st)) ->
  GetSignaturesV2 memTx = Some sigs ->
  checkSigners (selectedTxsSignersSeqs st) sigs ∅ = (true, m) ->
  PrepareProposalVerifyTx v memTx = Some txBz ->
  admittedBy v Remove maxTxBytes maxBlockGas st memTx = false ->
  (SelectTxForProposal maxTxBytes maxBlockGas (Some memTx) txBz
     (selector st)).2 = false ->
  exists st',
    iterStep v Remove maxTxBytes maxBlockGas st memTx = StepNext st'
    /\ forall signer,
         selectedTxsSignersSeqs st' !! signer
         = match lastSeq signer sigs with
           | Some seq =>
               match selectedTxsSignersSeqs st !! signer with
               | Some s => Some s
               | None => Some (sub64 seq 1)
               end
           | None => selectedTxsSignersSeqs st !! signer
           end.
Proof.
  intros Hnum Hs Hc Hv Hadm Hstop.
  destruct (iterStep_verified_cases v Remove maxTxBytes maxBlockGas st memTx
              sigs m txBz Hs Hc Hv)
    as (st' & Hstep & [[_ Hadm']|[Hsel _]]); [congruence|].
  destruct Hstep as [Hbreak|(Hnext & Hrec & _)].
  { rewrite (iterStep_verified _ _ _ _ _ _ _ _ _ Hs Hc Hv) in Hbreak.
    unfold SelectTxForProposal in Hstop. simpl in Hstop.
    cbn zeta in Hbreak. by rewrite Hstop in Hbreak. }
  rewrite Hsel, Hnum, Nat.eqb_refl in Hrec. simpl in Hrec.
  exists st'. split; [done|]. intros signer.
  rewrite Hrec, updateSeqs_lookup.
  by rewrite (checkSigners_lastSeq _ _ _ signer Hc).
Qed.

(** X13: after a transaction that passed the filter and the verifier was
    rejected by the selector without halt, the filter lets through, for the
    signers of that transaction, exactly the sequence it carried: the same
    signature list passes again, and a list that gives one of these signers
    another sequence is skipped (each signer listed with one [uint64]
    sequence). *)
Theorem after_rejection_only_same_sequence_passes
    v Remove maxTxBytes maxBlockGas st memTx sigs txBz :
  wellFormedLoopState st ->
  GetSignaturesV2 memTx = Some sigs ->
  passesSequenceCheck (selectedTxsSignersSeqs st) sigs = true ->
  PrepareProposalVerifyTx v memTx = Some txBz ->
  admittedBy v Remove maxTxBytes maxBlockGas st memTx = false ->
  (SelectTxForProposal maxTxBytes maxBlockGas (Some memTx) txBz
     (selector st)).2 = false ->
  (forall sig, sig ∈ sigs ->
     lastSeq (Signer sig) sigs = Some (Sequence sig)
     /\ Sequence sig < two64) ->
  exists st',
    iterStep v Remove maxTxBytes maxBlockGas st memTx = StepNext st'
    /\ passesSequenceCheck (selectedTxsSignersSeqs st') sigs = true
    /\ forall sig sigs' sig',
         sig ∈ sigs -> sig' ∈ sigs' ->
         Signer sig' = Signer sig -> Sequence sig' <> Sequence sig ->
         passesSequenceCheck (selectedTxsSignersSeqs st') sigs' = false.
Proof.
  intros [Hwf Hnum] Hs Hpass Hv Hadm Hstop Hone.
  unfold passesSequenceCheck in Hpass.
  destruct (checkSigners (selectedTxsSignersSeqs st) sigs ∅) as [b m] eqn:Hc.
  simpl in Hpass. subst b.
  destruct (budget_rejection_lookup v Remove maxTxBytes maxBlockGas st memTx
              sigs m txBz Hnum Hs Hc Hv Hadm Hstop) as (st' & Hstep & Hlook).
  assert (Hnext : forall sg, sg ∈ sigs ->
            exists r, selectedTxsSignersSeqs st' !! Signer sg = Some r
                      /\ add64 r 1 = Sequence sg).
  { intros sg Hin. destruct (Hone sg Hin) as [Hl Hlt].
    rewrite Hlook, Hl.
    destruct (selectedTxsSignersSeqs st !! Signer sg) as [s|] eqn:Hr.
    - exists s. split; [done|]. symmetry.
      by eapply passing_seq_continues.
    - eexists. split; [done|]. by apply add64_sub64_1. }
  exists st'. split; [done|]. split.
  - unfold passesSequenceCheck. apply checkSigners_pass_iff, Forall_forall.
    intros sg Hin s Hs'. destruct (Hnext sg Hin) as (r & Hr & Heq).
    congruence.
  - intros sg sigs' sg' Hin Hin' Hsame Hdiff.
    destruct (Hnext sg Hin) as (r & Hr & Heq).
    eapply checkSigners_violation; [exact Hin'|by rewrite Hsame|congruence].
Qed.

Lemma after_rejection_only_same_sequence_passes_witness :
  exists st',
    iterStep sampleVerifier (fun _ => RemoveOk) 3 0 initialLoopState
      (sampleTx 4 4 0) = StepNext st'
    /\ passesSequenceCheck (selectedTxsSignersSeqs st') [mkSig "A" 0] = true
    /\ forall sig sigs' sig',
         sig ∈ [mkSig "A" 0] -> sig' ∈ sigs' ->
         Signer sig' = Signer sig -> Sequence sig' <> Sequence sig ->
         passesSequenceCheck (selectedTxsSignersSeqs st') sigs' = false.
Proof.
  assert (Hwf : wellFormedLoopState initialLoopState).
  { split; [apply map_Forall_empty|reflexivity]. }
  apply (after_rejection_only_same_sequence_passes
           sampleVerifier (fun _ => RemoveOk) 3 0 initialLoopState
           (sampleTx 4 4 0) [mkSig "A" 0] (replicate 4 Byte.x00)
           Hwf eq_refl eq_refl eq_refl eq_refl eq_refl).
  intros sg Hin. apply list_elem_of_singleton in Hin as ->.
  split; reflexivity.
Defined.

(** ** Admission commits, and a full budget ends the scan *)

(** X14: when a transaction that passed the filter and the verifier is
    admitted and the selector does not signal halt, its verified bytes are
    appended to the selected list and every signer it lists is recorded
    with the (last) sequence the transaction gives it; the records of other
    signers are left as they were. *)
Theorem admission_commits_sequences
    v Remove maxTxBytes maxBlockGas st memTx sigs txBz :
  selectedTxsNums st = length (selectedTxs (selector st)) ->
  GetSignaturesV2 memTx = Some sigs ->
  passesSequenceCheck (selectedTxsSignersSeqs st) sigs = true ->
  PrepareProposalVerifyTx v memTx = Some txBz ->
  admittedBy v Remove maxTxBytes maxBlockGas st memTx = true ->
  (SelectTxForProposal maxTxBytes maxBlockGas (Some memTx) txBz
     (selector st)).2 = false ->
  exists st',
    iterStep v Remove maxTxBytes maxBlockGas st memTx = StepNext st'
    /\ selectedTxs (selector st') = selectedTxs (selector st) ++ [txBz]
    /\ selectedTxsNums st' = length (selectedTxs (selector st'))
    /\ forall signer,
         selectedTxsSignersSeqs st' !! signer
         = match lastSeq signer sigs with
           | Some seq => Some seq
           | None => selectedTxsSignersSeqs st !! signer
           end.
Proof.
  intros Hnum Hs Hpass Hv Hadm Hstop.
  unfold passesSequenceCheck in Hpass.
  destruct (checkSigners (selectedTxsSignersSeqs st) sigs ∅) as [b m] eqn:Hc.
  simpl in Hpass. subst b.
  destruct (iterStep_verified_cases v Remove maxTxBytes maxBlockGas st memTx
              sigs m txBz Hs Hc Hv)
    as (st' & Hstep & [[Hsel _]|[_ Hadm']]); [|congruence].
  destruct Hstep as [Hbreak|(Hnext & Hrec & Hnum')].
  { rewrite (iterStep_verified _ _ _ _ _ _ _ _ _ Hs Hc Hv) in Hbreak.
    unfold SelectTxForProposal in Hstop. simpl in Hstop.
    cbn zeta in Hbreak. by rewrite Hstop in Hbreak. }
  exists st'. split; [done|]. split; [by rewrite Hsel|]. split; [done|].
  intros signer. rewrite Hrec, Hsel, Hnum.
  assert (Hgrow : negb (Nat.eqb
            (length (selectedTxs
               (admittedState maxBlockGas (Some memTx) txBz (selector st))))
            (length (selectedTxs (selector st)))) = true).
  { simpl. rewrite length_app. simpl. apply negb_true_iff, Nat.eqb_neq. lia. }
  rewrite Hgrow, updateSeqs_lookup.
  by rewrite (checkSigners_lastSeq _ _ _ signer Hc).
Qed.

Lemma admission_commits_sequences_witness :
  exists st',
    iterStep sampleVerifier (fun _ => RemoveOk) 9 0 initialLoopState
      (sampleTx 4 4 5) = StepNext st'
    /\ selectedTxs (selector st') = [] ++ [replicate 4 Byte.x00]
    /\ selectedTxsNums st' = length (selectedTxs (selector st'))
    /\ forall signer,
         selectedTxsSignersSeqs st' !! signer
         = match lastSeq signer [mkSig "A" 5] with
           | Some seq => Some seq
           | None => (∅ : gmap string N) !! signer
           end.
Proof.
  apply (admission_commits_sequences
           sampleVerifier (fun _ => RemoveOk) 9 0 initialLoopState
           (sampleTx 4 4 5) [mkSig "A" 5] (replicate 4 Byte.x00)
           eq_refl eq_refl eq_refl eq_refl eq_refl eq_refl).
Defined.

(** Once the selector has reached capacity at the end of a run that began
    below capacity, the run ended by a break: what follows in the iterator
    is not examined. *)
Lemma prepareLoop_full_ignores_rest v Remove maxTxBytes maxBlockGas before :
  forall st st' after,
    reachedCapacity maxTxBytes maxBlockGas (selector st) = false ->
    prepareLoop v Remove maxTxBytes maxBlockGas st before = Some st' ->
    reachedCapacity maxTxBytes maxBlockGas (selector st') = true ->
    prepareLoop v Remove maxTxBytes maxBlockGas st (before ++ after)
    = Some st'.
Proof.
  induction before as [|memTx rest IH]; intros st st' after Hroom Hloop Hfull.
  - simpl in Hloop. injection Hloop as <-. congruence.
  - cbn [prepareLoop app] in *.
    destruct (iterStep_inv v Remove maxTxBytes maxBlockGas st memTx)
      as [Hp|[Hn|(sigs & m & txBz & Hs & Hc & Hv)]].
    + by rewrite Hp in Hloop.
    + rewrite Hn in *. by apply IH.
    + rewrite (iterStep_verified _ _ _ _ _ _ _ _ _ Hs Hc Hv) in *.
      cbn zeta in *.
      destruct (reachedCapacity maxTxBytes maxBlockGas
                  (selectUpdate maxTxBytes maxBlockGas (Some memTx) txBz
                     (selector st))) eqn:Hcap; [done|].
      by apply IH.
Qed.

(** X15: with a real mempool and a byte limit [0 < MaxTxBytes], once the
    transactions admitted from a prefix of the iterator fill the limit
    exactly, the rest of the iterator is not examined: the response is the
    one of the prefix alone, whatever follows (even a transaction on which
    the build would panic). *)
Theorem full_byte_limit_ends_scan
    Select Select' Remove v ctx req before after txs :
  (0 < MaxTxBytes req < 9223372036854775808)%Z ->
  (forall tx txBz,
     PrepareProposalVerifyTx v tx = Some txBz ->
     N.of_nat (length txBz) < 9223372036854775808) ->
  Select ctx (Txs req) = before ++ after ->
  Select' ctx (Txs req) = before ->
  (PrepareProposalHandler (realHandler Select' Remove v) ctx req).1
  = PrepareOk txs ->
  totalLen txs = Z.to_N (MaxTxBytes req) ->
  (PrepareProposalHandler (realHandler Select Remove v) ctx req).1
  = PrepareOk txs.
Proof.
  intros Hmax Hlen Hsel Hsel' Hprep Hfull.
  apply realHandler_response in Hprep as (st & Hloop & ->).
  rewrite Hsel' in Hloop.
  assert (Hcap : reachedCapacity (uint64_of_int64 (MaxTxBytes req))
                   (prepareMaxBlockGas ctx) (selector st) = true).
  { apply reachedCapacity_spec. left.
    rewrite uint64_of_int64_nonneg in * by lia.
    apply prepareLoop_bytes_exact in Hloop as [-> _]; [lia|lia|done]. }
  assert (Hroom : reachedCapacity (uint64_of_int64 (MaxTxBytes req))
                    (prepareMaxBlockGas ctx) (selector initialLoopState)
                  = false).
  { apply not_true_is_false. rewrite reachedCapacity_spec.
    rewrite uint64_of_int64_nonneg by lia. simpl. lia. }
  pose proof (prepareLoop_full_ignores_rest _ _ _ _ _ _ _ after
                Hroom Hloop Hcap) as Hall.
  unfold PrepareProposalHandler, realHandler, NewDefaultProposalHandler.
  cbn [mempool txVerifier txSelector]. fold initialLoopState.
  by rewrite Hsel, Hall.
Qed.

Lemma full_byte_limit_ends_scan_witness :
  (PrepareProposalHandler
     (realHandler (fun _ _ => [sampleTx 4 4 5; sampleTx 4 4 6] ++ [unsignedTx])
        (fun _ => RemoveOk) boundedVerifier)
     nilContext {| MaxTxBytes := 8; Txs := [] |}).1
  = PrepareOk [replicate 4 Byte.x00; replicate 4 Byte.x00].
Proof.
  apply (full_byte_limit_ends_scan
           (fun _ _ => [sampleTx 4 4 5; sampleTx 4 4 6] ++ [unsignedTx])
           (fun _ _ => [sampleTx 4 4 5; sampleTx 4 4 6])
           (fun _ => RemoveOk) boundedVerifier nilContext
           {| MaxTxBytes := 8; Txs := [] |}
           [sampleTx 4 4 5; sampleTx 4 4 6] [unsignedTx]
           [replicate 4 Byte.x00; replicate 4 Byte.x00]).
  - simpl. lia.
  - apply boundedVerifier_short.
  - reflexivity.
  - reflexivity.
  - vm_compute. reflexivity.
  - vm_compute. reflexivity.
Defined.

(** * The budgets and what is selected *)

Lemma admittedCalls_cons_grow maxTxBytes maxBlockGas memTx txBz rest ts :
  selectUpdate maxTxBytes maxBlockGas memTx txBz ts
  = admittedState maxBlockGas memTx txBz ts ->
  admittedCalls maxTxBytes maxBlockGas ((memTx, txBz) :: rest) ts
  = (memTx, txBz)
    :: admittedCalls maxTxBytes maxBlockGas rest
         (admittedState maxBlockGas memTx txBz ts).
Proof.
  intros Heq. cbn [admittedCalls SelectTxForProposal fst snd]. rewrite Heq.
  assert (Hgrow : Nat.eqb
            (length (selectedTxs (admittedState maxBlockGas memTx txBz ts)))
            (length (selectedTxs ts)) = false).
  { apply Nat.eqb_neq. cbn. rewrite length_app. simpl. lia. }
  by rewrite Hgrow.
Qed.

Lemma admittedCalls_cons_same maxTxBytes maxBlockGas memTx txBz rest ts :
  selectUpdate maxTxBytes maxBlockGas memTx txBz ts = ts ->
  admittedCalls maxTxBytes maxBlockGas ((memTx, txBz) :: rest) ts
  = admittedCalls maxTxBytes maxBlockGas rest ts.
Proof.
  intros Heq. cbn [admittedCalls SelectTxForProposal fst snd]. rewrite Heq.
  by rewrite Nat.eqb_refl.
Qed.

(** When every candidate's length plus the byte budget is below 2^64, no
    addition to the byte counter wraps around. *)
Lemma selectCalls_bytes_exact_bounded maxTxBytes maxBlockGas calls :
  forall ts,
    totalTxBytes ts <= maxTxBytes ->
    (forall c, c ∈ calls -> N.of_nat (length c.2) + maxTxBytes < two64) ->
    totalTxBytes (selectCalls maxTxBytes maxBlockGas calls ts)
    = totalTxBytes ts
      + totalLen (admittedCalls maxTxBytes maxBlockGas calls ts).*2.
Proof.
  induction calls as [|[memTx txBz] rest IH]; intros ts Hle Hall.
  - cbn. lia.
  - rewrite selectCalls_cons. cbn [fst snd].
    assert (Hc : N.of_nat (length txBz) + maxTxBytes < two64)
      by (apply (Hall (memTx, txBz)); by left).
    assert (Hrest : forall c, c ∈ rest ->
              N.of_nat (length c.2) + maxTxBytes < two64)
      by (intros c Hin; apply Hall; by right).
    destruct (selectUpdate_spec maxTxBytes maxBlockGas memTx txBz ts)
      as [(Fb & _ & Heq)|[_ Heq]].
    + rewrite (admittedCalls_cons_grow _ _ _ _ _ _ Heq), Heq.
      rewrite fmap_cons, totalLen_cons. cbn [snd].
      unfold fitsBytes in Fb.
      rewrite txSizeOf_small, add64_small in Fb by lia.
      rewrite IH; [|cbn; rewrite txSizeOf_small, add64_small by lia; lia
                   |done].
      cbn [admittedState totalTxBytes].
      rewrite txSizeOf_small, add64_small by lia. lia.
    + rewrite (admittedCalls_cons_same _ _ _ _ _ _ Heq), Heq. by apply IH.
Qed.

(** The same for the gas counter under a positive gas budget. *)
Lemma selectCalls_gas_exact_bounded maxTxBytes maxBlockGas calls :
  0 < maxBlockGas ->
  forall ts,
    totalTxGas ts <= maxBlockGas ->
    (forall c, c ∈ calls -> txGasLimitOf c.1 + maxBlockGas < two64) ->
    totalTxGas (selectCalls maxTxBytes maxBlockGas calls ts)
    = totalTxGas ts
      + totalGas (admittedCalls maxTxBytes maxBlockGas calls ts).*1.
Proof.
  intros Hpos. apply N.ltb_lt in Hpos as Hpos'.
  induction calls as [|[memTx txBz] rest IH]; intros ts Hle Hall.
  - cbn. lia.
  - rewrite selectCalls_cons. cbn [fst snd].
    assert (Hc : txGasLimitOf memTx + maxBlockGas < two64)
      by (apply (Hall (memTx, txBz)); by left).
    assert (Hrest : forall c, c ∈ rest ->
              txGasLimitOf c.1 + maxBlockGas < two64)
      by (intros c Hin; apply Hall; by right).
    destruct (selectUpdate_spec maxTxBytes maxBlockGas memTx txBz ts)
      as [(_ & Fg & Heq)|[_ Heq]].
    + rewrite (admittedCalls_cons_grow _ _ _ _ _ _ Heq), Heq.
      rewrite fmap_cons, totalGas_cons. cbn [fst].
      unfold fitsGas in Fg. rewrite add64_small in Fg by lia.
      destruct Fg as [?|Fg]; [lia|].
      rewrite IH; [|cbn; rewrite Hpos', add64_small by lia; lia|done].
      cbn [admittedState totalTxGas]. rewrite Hpos', add64_small by lia. lia.
    + rewrite (admittedCalls_cons_same _ _ _ _ _ _ Heq), Heq. by apply IH.
Qed.

(** When the declared gas of all the candidates offered sums to less than
    2^64, no addition to the gas counter wraps around. *)
Lemma selectCalls_gas_exact_sum maxTxBytes maxBlockGas calls :
  0 < maxBlockGas ->
  forall ts,
    totalTxGas ts + totalGas calls.*1 < two64 ->
    totalTxGas (selectCalls maxTxBytes maxBlockGas calls ts)
    = totalTxGas ts
      + totalGas (admittedCalls maxTxBytes maxBlockGas calls ts).*1.
Proof.
  intros Hpos. apply N.ltb_lt in Hpos as Hpos'.
  induction calls as [|[memTx txBz] rest IH]; intros ts Hsum.
  - cbn. lia.
  - rewrite selectCalls_cons. cbn [fst snd].
    rewrite fmap_cons, totalGas_cons in Hsum. cbn [fst] in Hsum.
    destruct (selectUpdate_spec maxTxBytes maxBlockGas memTx txBz ts)
      as [(_ & _ & Heq)|[_ Heq]].
    + rewrite (admittedCalls_cons_grow _ _ _ _ _ _ Heq), Heq.
      rewrite fmap_cons, totalGas_cons. cbn [fst].
      rewrite IH; [|cbn; rewrite Hpos', add64_small by lia; lia].
      cbn [admittedState totalTxGas]. rewrite Hpos', add64_small by lia. lia.
    + rewrite (admittedCalls_cons_same _ _ _ _ _ _ Heq), Heq.
      apply IH. lia.
Qed.

(** C1 as stated fails: the gas counter wraps around.  Under budgets of 100
    bytes and 10 gas, candidates declaring 5 and 2^64 - 1 gas are both
    selected (5 + (2^64 - 1) wraps to 4), so the gas selected, 2^64 + 4,
    exceeds the budget while [totalTxGas] is 4. *)
Lemma selected_gas_can_exceed_budget :
  ~ (forall maxTxBytes maxBlockGas calls ts0,
       0 < maxBlockGas ->
       totalGas (admittedCalls maxTxBytes maxBlockGas calls (Clear ts0)).*1
       <= maxBlockGas).
Proof.
  intros H.
  specialize (H 100 10 wrappingCalls NewDefaultTxSelector eq_refl).
  vm_compute in H. by apply H.
Qed.

(** C1 (amended): from a cleared selector, after any sequence of
    [SelectTxForProposal] calls under fixed budgets, the selected list is
    the bytes of the admitted candidates, in call order; the counters
    satisfy [totalTxBytes <= maxTxBytes] and, when [maxBlockGas > 0],
    [totalTxGas <= maxBlockGas]; and whenever no addition can wrap around
    -- every candidate's length plus [maxTxBytes] (declared gas plus
    [maxBlockGas]) is below 2^64, or the lengths (declared gas) of all the
    candidates offered sum to less than 2^64 -- the counters are the exact
    sums, so the total length of the selected transactions is at most
    [maxTxBytes] and, when [maxBlockGas > 0], the total gas of the admitted
    candidates is at most [maxBlockGas].  When [maxBlockGas = 0], a
    candidate that is excluded failed the byte test, and the outcome of a
    call does not depend on the gas the candidate declares. *)
Theorem selected_totals_within_budgets maxTxBytes maxBlockGas calls ts0 :
  let ts := selectCalls maxTxBytes maxBlockGas calls (Clear ts0) in
  let adm := admittedCalls maxTxBytes maxBlockGas calls (Clear ts0) in
  selectedTxs ts = adm.*2
  /\ adm `sublist_of` calls
  /\ totalTxBytes ts <= maxTxBytes
  /\ (0 < maxBlockGas -> totalTxGas ts <= maxBlockGas)
  /\ ((forall c, c ∈ calls -> N.of_nat (length c.2) + maxTxBytes < two64)
      \/ totalLen calls.*2 < two64 ->
      totalLen (selectedTxs ts) = totalTxBytes ts
      /\ totalLen (selectedTxs ts) <= maxTxBytes)
  /\ (0 < maxBlockGas ->
      (forall c, c ∈ calls -> txGasLimitOf c.1 + maxBlockGas < two64)
      \/ totalGas calls.*1 < two64 ->
      totalGas adm.*1 = totalTxGas ts
      /\ totalGas adm.*1 <= maxBlockGas)
  /\ (maxBlockGas = 0 ->
      forall memTx txBz,
        ((SelectTxForProposal maxTxBytes maxBlockGas memTx txBz ts).1 = ts ->
         maxTxBytes < add64 (totalTxBytes ts) (txSizeOf txBz))
        /\ forall memTx',
             SelectTxForProposal maxTxBytes maxBlockGas memTx' txBz ts
             = SelectTxForProposal maxTxBytes maxBlockGas memTx txBz ts).
Proof.
  intros ts adm. subst ts adm.
  destruct (selectCalls_counters_within_budgets maxTxBytes maxBlockGas calls
              ts0) as (Hb & Hg & Hzero).
  destruct (selectCalls_appends maxTxBytes maxBlockGas calls (Clear ts0))
    as [Hsel Hsub].
  simpl in Hsel.
  split; [done|]. split; [done|]. split; [done|]. split; [done|].
  split; [|split; [|done]].
  - intros Hno.
    assert (Hexact : totalTxBytes
                       (selectCalls maxTxBytes maxBlockGas calls (Clear ts0))
                     = totalLen
                         (admittedCalls maxTxBytes maxBlockGas calls
                            (Clear ts0)).*2).
    { destruct Hno as [Hall|Hsum].
      - rewrite selectCalls_bytes_exact_bounded; [done| |done].
        simpl. apply N.le_0_l.
      - pose proof (selectCalls_totals_exact maxTxBytes maxBlockGas calls
                      (Clear ts0)) as Hex.
        cbn zeta in Hex. destruct Hex as (_ & _ & -> & _); [|done].
        done. }
    rewrite Hsel, <- Hexact. done.
  - intros Hpos Hno.
    assert (Hexact : totalTxGas
                       (selectCalls maxTxBytes maxBlockGas calls (Clear ts0))
                     = totalGas
                         (admittedCalls maxTxBytes maxBlockGas calls
                            (Clear ts0)).*1).
    { destruct Hno as [Hall|Hsum].
      - rewrite selectCalls_gas_exact_bounded; [done|done| |done].
        simpl. apply N.le_0_l.
      - rewrite selectCalls_gas_exact_sum; done. }
    rewrite <- Hexact. split; [done|]. by apply Hg.
Qed.

(** * The block gas limit in the builder and in the validator *)

(** A build with a real mempool is the main loop run under the byte limit
    [uint64(req.MaxTxBytes)] and the gas budget [uint64(b.MaxGas)]. *)
Lemma realHandler_runs_loop Select Remove v ctx req :
  (PrepareProposalHandler (realHandler Select Remove v) ctx req).1
  = match prepareLoop v Remove (uint64_of_int64 (MaxTxBytes req))
            (prepareMaxBlockGas ctx) initialLoopState
            (Select ctx (Txs req)) with
    | Some st => PrepareOk (selectedTxs (selector st))
    | None => PreparePanic
    end.
Proof.
  unfold PrepareProposalHandler, realHandler, NewDefaultProposalHandler.
  cbn [mempool txVerifier txSelector]. fold initialLoopState.
  by destruct (prepareLoop _ _ _ _ _ _).
Qed.

(** Under a gas budget between 1 and 2^64 - 2 the probe's first
    transaction, which declares 2^64 - 1 gas, is left out, and the
    bookkeeping then makes the filter skip the second: the response is
    empty. *)
Lemma gasProbe_below_max budget :
  0 < budget -> budget < 18446744073709551615 ->
  prepareLoop sampleVerifier (fun _ => RemoveOk) 100 budget initialLoopState
    [maxGasTx; sampleTx 1 0 1]
  = Some {| selector := NewDefaultTxSelector;
            selectedTxsSignersSeqs :=
              updateSeqs false (<["A" := 0]> ∅) ∅;
            selectedTxsNums := 0 |}.
Proof.
  intros Hpos Hlt.
  assert (Hsel : selectUpdate 100 budget (Some maxGasTx) [Byte.x00]
                   NewDefaultTxSelector = NewDefaultTxSelector).
  { destruct (selectUpdate_spec 100 budget (Some maxGasTx) [Byte.x00]
                NewDefaultTxSelector) as [(_ & Fg & _)|[_ ->]]; [|done].
    exfalso. unfold fitsGas in Fg.
    change (add64 (totalTxGas NewDefaultTxSelector)
              (txGasLimitOf (Some maxGasTx)))
      with 18446744073709551615 in Fg.
    destruct Fg; lia. }
  assert (Hcap : reachedCapacity 100 budget NewDefaultTxSelector = false).
  { apply not_true_is_false. rewrite reachedCapacity_spec. simpl. lia. }
  cbn [prepareLoop].
  rewrite (iterStep_verified sampleVerifier (fun _ => RemoveOk) 100 budget
             initialLoopState maxGasTx [mkSig "A" 0] (<["A" := 0]> ∅)
             [Byte.x00] eq_refl eq_refl eq_refl).
  cbn zeta. cbn [initialLoopState selector selectedTxsSignersSeqs
                 selectedTxsNums].
  rewrite Hsel, Hcap.
  cbn [selectedTxs NewDefaultTxSelector length Nat.eqb negb].
  rewrite (iterStep_skipped sampleVerifier (fun _ => RemoveOk) 100 budget _
             (sampleTx 1 0 1) [mkSig "A" 1] eq_refl); [done|].
  by vm_compute.
Qed.

(** For every negative [MaxGas] the builder's response on the probe differs
    from its response under [MaxGas = 0]. *)
Lemma gasProbe_differs g :
  int64_range g -> (g < 0)%Z ->
  (PrepareProposalHandler gasProbeHandler (contextWithMaxGas g) gapRequest).1
  <> (PrepareProposalHandler gasProbeHandler (contextWithMaxGas 0)
        gapRequest).1.
Proof.
  intros Hr Hneg. unfold int64_range in Hr.
  assert (Hzero : (PrepareProposalHandler gasProbeHandler
                     (contextWithMaxGas 0) gapRequest).1
                  = PrepareOk [[Byte.x00]; [Byte.x00]])
    by (by vm_compute).
  rewrite Hzero.
  destruct (decide (g = (-1)%Z)) as [->|Hne].
  - by vm_compute.
  - unfold gasProbeHandler. rewrite realHandler_runs_loop.
    change (prepareMaxBlockGas (contextWithMaxGas g))
      with (uint64_of_int64 g).
    rewrite (uint64_of_int64_neg g) by lia.
    change (uint64_of_int64 (MaxTxBytes gapRequest)) with 100.
    rewrite gasProbe_below_max by lia. done.
Qed.

(** C10: for a negative [Block.MaxGas] (an [int64]),
    [PrepareProposalHandler] runs its main loop under the gas budget
    [uint64(b.MaxGas) = 2^64 + MaxGas] (so [2^64 - 1] for [-1]), a positive
    budget: the selector applies the gas test and adds the gas of what it
    admits, and on the probe mempool the response differs from the one
    under [MaxGas = 0]; [ProcessProposalHandler] keeps the [int64] and for
    every [MaxGas <= 0] accepts exactly when every transaction verifies,
    whatever gas is declared.  The builder's budget is zero exactly when
    [MaxGas = 0], and then the selector's outcome does not depend on the
    declared gas either. *)
Theorem negative_max_gas_builder_accounts_validator_skips g :
  int64_range g ->
  (forall Select Remove v req,
     (PrepareProposalHandler (realHandler Select Remove v)
        (contextWithMaxGas g) req).1
     = match prepareLoop v Remove (uint64_of_int64 (MaxTxBytes req))
             (uint64_of_int64 g) initialLoopState
             (Select (contextWithMaxGas g) (Txs req)) with
       | Some st => PrepareOk (selectedTxs (selector st))
       | None => PreparePanic
       end)
  /\ (uint64_of_int64 g = 0 <-> g = 0%Z)
  /\ ((g < 0)%Z ->
      uint64_of_int64 g = Z.to_N (18446744073709551616 + g)
      /\ 9223372036854775808 <= uint64_of_int64 g
      /\ (g = (-1)%Z -> uint64_of_int64 g = 18446744073709551615)
      /\ (forall maxTxBytes memTx txBz ts,
            (SelectTxForProposal maxTxBytes (uint64_of_int64 g)
               memTx txBz ts).1 <> ts ->
            add64 (totalTxGas ts) (txGasLimitOf memTx) <= uint64_of_int64 g
            /\ totalTxGas (SelectTxForProposal maxTxBytes (uint64_of_int64 g)
                             memTx txBz ts).1
               = add64 (totalTxGas ts) (txGasLimitOf memTx))
      /\ (PrepareProposalHandler gasProbeHandler (contextWithMaxGas g)
            gapRequest).1
         <> (PrepareProposalHandler gasProbeHandler (contextWithMaxGas 0)
               gapRequest).1)
  /\ ((g <= 0)%Z ->
      forall Select Remove v sel req,
        ProcessProposalHandler
          {| mempool := RealMempool Select Remove;
             txVerifier := v; txSelector := sel |}
          (contextWithMaxGas g) req = ACCEPT
        <-> Forall (verifies v) (ProposalTxs req))
  /\ (g = 0%Z ->
      forall maxTxBytes memTx memTx' txBz ts,
        SelectTxForProposal maxTxBytes (uint64_of_int64 g) memTx txBz ts
        = SelectTxForProposal maxTxBytes (uint64_of_int64 g) memTx' txBz ts).
Proof.
  intros Hr.
  pose proof (max_gas_conversion_selector g Hr) as Hsel. cbn zeta in Hsel.
  change (prepareMaxBlockGas (contextWithMaxGas g))
    with (uint64_of_int64 g) in Hsel.
  destruct Hsel as (Hzero & Hneg & Hminus & Hval & Hunl).
  split; [|split; [done|split; [|split; [done|done]]]].
  - intros Select Remove v req. by rewrite realHandler_runs_loop.
  - intros Hlt. destruct (Hneg Hlt) as (Hconv & _ & Hacc & _).
    split; [done|]. split.
    { unfold int64_range in Hr. rewrite Hconv. lia. }
    split; [done|]. split; [done|]. by apply gasProbe_differs.
Qed.

Lemma negative_max_gas_builder_accounts_validator_skips_witness :
  uint64_of_int64 (-1) = 18446744073709551615
  /\ (PrepareProposalHandler gasProbeHandler (contextWithMaxGas (-1))
        gapRequest).1
     <> (PrepareProposalHandler gasProbeHandler (contextWithMaxGas 0)
           gapRequest).1.
Proof.
  assert (Hr : int64_range (-1)) by (unfold int64_range; lia).
  destruct (negative_max_gas_builder_accounts_validator_skips (-1) Hr)
    as (_ & _ & Hneg & _).
  destruct (Hneg eq_refl) as (_ & _ & Hminus & _ & Hprobe).
  split; [exact (Hminus eq_refl)|exact Hprobe].
Defined.
